(** * homebridge-camera-ui: motion handler and camera prebuffer

  A shallow embedding of two services of the camera UI server:

  - [Handler]: [server/services/handler.service.js], the motion event
    orchestrator ([MotionHandler.handle] and its helpers);
  - [Prebuffer]: the prebuffer service ([PreBuffer.start], [stop],
    [startPreBufferSessions], [getVideo]).

  The asynchronous JavaScript of the motion handler is embedded as
  finite programs over the calls it makes to its collaborators (a free
  monad with exceptions); an interpreter threads the module-level
  [movementHandler] object and a trace of every call made.  The prebuffer
  service is embedded with explicit state passing. *)

From Stdlib Require Import ZArith Ascii List Lia Bool Sorted.
From Stdlib.Strings Require Import Byte.
From stdpp Require Import base gmap strings list pretty.

Local Open Scope Z_scope.

(** ** JavaScript built-ins used by both services *)

Module Js.

(** The double quote character, for messages that quote a name. *)
Definition dquote : string := String (ascii_of_nat 34) EmptyString.

(** [String.prototype.toLowerCase], on the ASCII letters. *)
Definition lower_ascii (c : ascii) : ascii :=
  let n := nat_of_ascii c in
  if (Nat.leb 65 n && Nat.leb n 90)%bool then ascii_of_nat (n + 32) else c.

Fixpoint toLowerCase (s : string) : string :=
  match s with
  | EmptyString => EmptyString
  | String c rest => String (lower_ascii c) (toLowerCase rest)
  end.

(** Truthiness of a string: only the empty string is falsy. *)
Definition truthy (s : string) : bool := negb (String.eqb s "").

(** [Array.prototype.includes] on an array of strings. *)
Definition includes (l : list string) (x : string) : bool :=
  existsb (String.eqb x) l.

(** [Array.prototype.toString]: the elements joined by commas. *)
Fixpoint join (l : list string) : string :=
  match l with
  | [] => ""
  | [x] => x
  | x :: rest => x +:+ "," +:+ join rest
  end.

(** [String.prototype.includes] for a one-character needle. *)
Fixpoint has_char (c : ascii) (s : string) : bool :=
  match s with
  | EmptyString => false
  | String d rest => if Ascii.eqb c d then true else has_char c rest
  end.

(** [String.prototype.replace] with a one-character string pattern:
    only the first occurrence is replaced. *)
Fixpoint replace_first (c : ascii) (by_ : string) (s : string) : string :=
  match s with
  | EmptyString => EmptyString
  | String d rest =>
      if Ascii.eqb c d then by_ +:+ rest
      else String d (replace_first c by_ rest)
  end.

(** [String.prototype.split(' ')]. *)
Fixpoint split_space (s : string) : list string :=
  match s with
  | EmptyString => [""]
  | String c rest =>
      if Ascii.eqb c " " then "" :: split_space rest
      else match split_space rest with
           | w :: ws => String c w :: ws
           | [] => [String c ""]
           end
  end.

(** [Math.round(x / 1000)] for an integer [x]: halves round up. *)
Definition round_div_1000 (x : Z) : Z := (x + 500) / 1000.

(** [a || b] on a number that may be undefined: 0 and undefined are
    falsy. *)
Definition num_or (a : option Z) (b : Z) : Z :=
  match a with
  | Some v => if v =? 0 then b else v
  | None => b
  end.

End Js.

(** ** The motion handler ([server/services/handler.service.js]) *)

Module Handler.

(** *** Data *)

(** A thrown error, identified by its [message]. *)
Definition Error := string.

(** What a call to a collaborator does: return a value or throw. *)
Inductive Outcome (A : Type) : Type :=
| Returned (a : A)
| Raised (e : Error).
Arguments Returned {A} a.
Arguments Raised {A} e.

(** A local date and time, as [new Date()] and [moment()] give it and
    as the settings store keeps [last_rekognition]. *)
Record DateTime := mkDateTime
  { year : Z; month : Z; day : Z; hour : Z; minute : Z; second : Z }.

(** [moment(a).isSame(b, 'month')]: same year and same month. *)
Definition isSame_month (a b : DateTime) : bool :=
  (year a =? year b) && (month a =? month b).

Record Rekognition := mkRekognition
  { rk_active : bool;
    rk_labels : option (list string);    (* undefined when not configured *)
    rk_confidence : option Z }.

Record CameraSettings := mkCameraSettings
  { telegramType : string;
    webhookUrl : string;
    rekognition : Rekognition }.

Record Camera := mkCamera
  { cam_name : string;
    videoConfig : string;
    cam_settings : CameraSettings }.

Record General := mkGeneral { atHome : bool; exclude : list string }.

(** The [aws] section of the settings, and also the [awsSettings]
    object that [handle] builds from it (same keys). *)
Record Aws := mkAws
  { aws_active : bool;
    accessKeyId : string;
    secretAccessKey : string;
    region : string;
    contingent_total : Z;
    contingent_left : Z;
    last_rekognition : option DateTime }.

Record RecordingSettings := mkRecordingSettings
  { rec_active : bool; rec_path : string; rec_timer : Z; rec_type : string }.

Record TelegramSettings := mkTelegramSettings
  { tg_active : bool;
    tg_token : string;
    tg_chatID : string;
    tg_message : string;
    tg_type : string }.

Record WebhookSettings := mkWebhookSettings
  { wh_active : bool; wh_endpoint : string }.

Record WebpushSettings := mkWebpushSettings
  { publicKey : string; privateKey : string; subscription : string }.

(** The snapshot of the settings store that [SettingsModel.show()]
    returns.  [tg_type] and [wh_endpoint] are not read from it: [handle]
    takes them from the camera. *)
Record SettingsDB := mkSettingsDB
  { general : General;
    aws : Aws;
    recordings : RecordingSettings;
    telegram : TelegramSettings;
    webhook : WebhookSettings;
    webpush : WebpushSettings }.

(** [motionInfo.label]: [null] when no detection ran, [false] when none
    of the wanted labels was detected, or the name of a label. *)
Inductive Label := LNull | LFalse | LName (name : string).

Record MotionInfo := mkMotionInfo
  { mi_id : string;
    mi_camera : string;
    mi_path : string;
    mi_storing : bool;
    mi_type : string;
    mi_timer : Z;
    mi_timestamp : Z;
    mi_trigger : string;
    mi_imgBuffer : option (list byte);   (* absent until the snapshot *)
    mi_label : option Label }.           (* absent until detection *)

(** The record [NotificationsModel.createNotification] returns; only
    these keys are read by the handler. *)
Record Notification := mkNotification
  { n_recordType : string; n_name : string; n_fileName : string }.

(** One entry of [imageLabels.Labels]. *)
Record DetectedLabel := mkDetectedLabel { Name : string; Confidence : Z }.

(** The object given to [telegram.send]. *)
Inductive TelegramContent :=
| TgMessage (text : string)
| TgImgBuffer (img : list byte)
| TgImgPath (path : string)
| TgVideo (path : string).

(** The partial object given to [SettingsModel.patchByTarget]. *)
Inductive SettingsPatch :=
| AwsQuota (contingent_left' : Z) (last_rekognition' : DateTime)
| SubscriptionOff.

Inductive Level := Debug | Warn | Err.

Inductive LogArg :=
| LText (s : string)
| LError (e : Error)
| LImageLabels (labels : list (option DetectedLabel)).

(** The result of [handle]. *)
Record Result := mkResult { error : bool; message : string }.

(** *** Calls

    Everything [handle] does to the world outside its own local
    variables: reads and writes of the module-level [movementHandler]
    object, the logger, the clock, and the collaborators (models,
    session service, detection service, delivery clients). *)

Inductive Call :=
| GetBusy (cameraName : string)
| SetBusy (cameraName : string) (b : bool)
| Log (lvl : Level) (what : LogArg)
| NewDate
| DateNow
| FindByName (cameraName : string)
| SettingsShow
| Nanoid
| RequestSession (cameraName : string)
| CloseSession (cameraName : string)
| RequestSnapshot (cameraName : string) (videoConfig : string)
| DetectLabels (aws : Aws) (imgBuffer : option (list byte))
| PatchByTarget (target : string) (patch : SettingsPatch)
| CreateNotification (motionInfo : MotionInfo)
| CreateRecording (motionInfo : MotionInfo)
| NewURL (s : string)
| GotPost (endpoint : string) (json : Notification)
| TelegramStart (token : string)
| TelegramSend (bot : nat) (chatID : string) (content : TelegramContent)
| TelegramStop (bot : nat)
| WebpushSetVapidDetails (subject publicKey privateKey : string)
| WebpushSendNotification (subscription : string) (payload : Notification).

(** The type of what a call returns. *)
Definition ret (c : Call) : Type :=
  match c with
  | GetBusy _ => option bool
  | SetBusy _ _ => unit
  | Log _ _ => unit
  | NewDate => DateTime
  | DateNow => Z
  | FindByName _ => option Camera
  | SettingsShow => SettingsDB
  | Nanoid => string
  | RequestSession _ => bool
  | CloseSession _ => unit
  | RequestSnapshot _ _ => list byte
  | DetectLabels _ _ => list (option DetectedLabel)
  | PatchByTarget _ _ => unit
  | CreateNotification _ => Notification
  | CreateRecording _ => unit
  | NewURL _ => unit
  | GotPost _ _ => unit
  | TelegramStart _ => nat
  | TelegramSend _ _ _ => unit
  | TelegramStop _ => unit
  | WebpushSetVapidDetails _ _ _ => unit
  | WebpushSendNotification _ _ => unit
  end.

(** The calls whose result the source awaits: the handler is suspended
    there and other tasks of the event loop run. *)
Definition is_await (c : Call) : bool :=
  match c with
  | FindByName _ | SettingsShow | Nanoid | RequestSnapshot _ _
  | DetectLabels _ _ | PatchByTarget _ _ | CreateNotification _
  | CreateRecording _ | GotPost _ _ | TelegramStart _
  | TelegramSend _ _ _ | TelegramStop _ => true
  | _ => false
  end.

(** *** Programs *)

Inductive Prog (R : Type) : Type :=
| Ret (r : R)
| Throw (e : Error)
| Vis (c : Call) (k : Outcome (ret c) -> Prog R).
Arguments Ret {R} r.
Arguments Throw {R} e.
Arguments Vis {R} c k.

Fixpoint bind {A B : Type} (p : Prog A) (f : A -> Prog B) : Prog B :=
  match p with
  | Ret a => f a
  | Throw e => Throw e
  | Vis c k => Vis c (fun o => bind (k o) f)
  end.

(** [try { p } catch (error) { h error }]. *)
Fixpoint try_catch {A : Type} (p : Prog A) (h : Error -> Prog A) : Prog A :=
  match p with
  | Ret a => Ret a
  | Throw e => h e
  | Vis c k => Vis c (fun o => try_catch (k o) h)
  end.

(** A call: its value when it returns, its error rethrown when it
    throws. *)
Definition call (c : Call) : Prog (ret c) :=
  Vis c (fun o => match o with Returned a => Ret a | Raised e => Throw e end).

Declare Scope prog_scope.
Delimit Scope prog_scope with prog.
Notation "x ← y ; z" := (bind y (fun x => z))
  (at level 20, y at level 100, z at level 200, only parsing) : prog_scope.
Notation "x ;; z" := (bind x (fun _ => z))
  (at level 100, z at level 200, only parsing, right associativity) : prog_scope.
Local Open Scope prog_scope.

Definition log (lvl : Level) (s : string) : Prog unit := call (Log lvl (LText s)).

(** *** The helpers of [handle] *)

Definition getMotionInfo (cameraName trigger : string)
    (recordingSettings : RecordingSettings) : Prog MotionInfo :=
  id ← call Nanoid;
  now ← call DateNow;
  Ret {| mi_id := id;
         mi_camera := cameraName;
         mi_path := rec_path recordingSettings;
         mi_storing := rec_active recordingSettings;
         mi_type := rec_type recordingSettings;
         mi_timer := rec_timer recordingSettings;
         mi_timestamp := Js.round_div_1000 now;
         mi_trigger := trigger;
         mi_imgBuffer := None;
         mi_label := None |}.

Definition handleAWS (awsInfo : SettingsPatch) : Prog unit :=
  call (PatchByTarget "aws" awsInfo).

Definition handleNotification (motionInfo : MotionInfo) : Prog Notification :=
  call (CreateNotification motionInfo).

Definition handleRecording (motionInfo : MotionInfo) : Prog unit :=
  call (CreateRecording motionInfo).

Definition handleSnapshot (cameraName videoConfig : string) : Prog (list byte) :=
  call (RequestSnapshot cameraName videoConfig).

(** [labels.toString()]: a [TypeError] when [labels] is undefined. *)
Definition labels_toString (labels : option (list string)) : Prog string :=
  match labels with
  | Some ls => Ret (Js.join ls)
  | None => Throw "Cannot read properties of undefined (reading 'toString')"
  end.

Definition default_labels : list string := ["human"; "face"; "person"].

(** The predicate of the [filter] over [imageLabels.Labels]:
    [label && labels.includes(label.Name.toLowerCase())
      && label.Confidence >= confidence]. *)
Definition label_matches (labels : list string) (confidence : Z)
    (label : option DetectedLabel) : bool :=
  match label with
  | Some l =>
      Js.includes labels (Js.toLowerCase (Name l)) && (confidence <=? Confidence l)
  | None => false
  end.

(** [label.Name] in the [map] after the filter, which kept no null. *)
Definition label_Name (label : option DetectedLabel) : string :=
  match label with
  | Some l => Name l
  | None => ""
  end.

(** [imageLabels.Labels.filter(...).map((label) => label.Name)], with the
    labels lower-cased and the defaults of the source. *)
Definition detect (labels : option (list string)) (confidence : option Z)
    (imageLabels : list (option DetectedLabel)) : list string :=
  let labels := List.map Js.toLowerCase (default default_labels labels) in
  let confidence := Js.num_or confidence 80 in
  List.map label_Name (List.filter (label_matches labels confidence) imageLabels).

Definition handleImageDetection (cameraName : string) (aws : Aws)
    (labels : option (list string)) (confidence : option Z)
    (imgBuffer : option (list byte)) : Prog Label :=
  try_catch
    (shown ← labels_toString labels;
     log Debug ("Analyzing image for following labels: " +:+ shown);;
     detected ←
       (if Js.truthy (accessKeyId aws) && Js.truthy (secretAccessKey aws)
           && Js.truthy (region aws)
        then
          imageLabels ← call (DetectLabels aws imgBuffer);
          let detected := detect labels confidence imageLabels in
          log Debug ("Label with confidence >= "
                       +:+ pretty (Js.num_or confidence 80) +:+ "% "
                       +:+ match detected with
                           | [] => "not found!"
                           | _ => "found: " +:+ Js.join detected
                           end);;
          match detected with
          | [] => call (Log Debug (LImageLabels imageLabels))
          | _ => Ret tt
          end;;
          now ← call NewDate;
          handleAWS (AwsQuota (contingent_left aws - 1) now);;
          Ret (Some detected)
        else
          log Warn "No AWS credentials setted up in config.json!";;
          Ret None);
     match detected with
     | Some (first :: _) => Ret (LName first)
     | Some [] => Ret LFalse
     | None => Throw "Cannot read properties of undefined (reading 'length')"
     end)
    (fun error =>
       log Err "An error occured during image rekognition";;
       call (Log Err (LError error));;
       Ret LFalse).

Definition sendTelegram (cameraName : string) (notification : Notification)
    (recordingSettings : RecordingSettings) (telegramSettings : TelegramSettings)
    (imgBuffer : option (list byte)) (sendBuffer sendVideo : bool) : Prog unit :=
  try_catch
    (if tg_active telegramSettings && Js.truthy (tg_token telegramSettings)
        && Js.truthy (tg_chatID telegramSettings)
        && Js.truthy (tg_type telegramSettings)
     then
       telegramBot ← call (TelegramStart (tg_token telegramSettings));
       (if String.eqb (tg_type telegramSettings) "Text" && negb sendVideo then
          if Js.truthy (tg_message telegramSettings) then
            let message :=
              if Js.has_char "@" (tg_message telegramSettings)
              then Js.replace_first "@" cameraName (tg_message telegramSettings)
              else tg_message telegramSettings in
            call (TelegramSend telegramBot (tg_chatID telegramSettings)
                    (TgMessage message))
          else Ret tt
        else if rec_active recordingSettings
                && String.eqb (tg_type telegramSettings) "Snapshot"
                && (String.eqb (rec_type recordingSettings) "Snapshot" || sendBuffer)
                && negb sendVideo then
          let content :=
            match imgBuffer with
            | Some img => TgImgBuffer img
            | None =>
                let fileName :=
                  if String.eqb (n_recordType notification) "Video"
                  then n_name notification +:+ "@2.jpeg"
                  else n_fileName notification in
                TgImgPath (rec_path recordingSettings +:+ "/" +:+ fileName)
            end in
          call (TelegramSend telegramBot (tg_chatID telegramSettings) content)
        else if rec_active recordingSettings
                && String.eqb (rec_type recordingSettings) "Video"
                && String.eqb (tg_type telegramSettings) "Video"
                && sendVideo then
          call (TelegramSend telegramBot (tg_chatID telegramSettings)
                  (TgVideo (rec_path recordingSettings +:+ "/"
                              +:+ n_fileName notification)))
        else Ret tt);;
       call (TelegramStop telegramBot)
     else log Debug "Skip Telegram notification")
    (fun error =>
       log Err "An error occured during sending telegram notification";;
       call (Log Err (LError error))).

Definition stringIsAValidUrl (s : string) : Prog bool :=
  try_catch (call (NewURL s);; Ret true) (fun _ => Ret false).

Definition sendWebhook (cameraName : string) (notification : Notification)
    (webhookSettings : WebhookSettings) : Prog unit :=
  try_catch
    (if wh_active webhookSettings && Js.truthy (wh_endpoint webhookSettings) then
       validUrl ← stringIsAValidUrl (wh_endpoint webhookSettings);
       if validUrl : bool then
         log Debug ("Trigger Webhook endpoint " +:+ wh_endpoint webhookSettings);;
         call (GotPost (wh_endpoint webhookSettings) notification);;
         log Debug ("Payload was sent successfully to "
                      +:+ wh_endpoint webhookSettings)
       else Ret tt
     else log Debug "Skip Webhook notification")
    (fun error =>
       log Err "An error occured during sending webhook notification";;
       call (Log Err (LError error))).

(** The promise of [webpush.sendNotification] is not awaited: its
    rejection handler ([webpush_rejected] below) runs detached, after
    [sendWebpush] has returned. *)
Definition sendWebpush (cameraName : string) (notification : Notification)
    (webpushSettings : WebpushSettings) : Prog unit :=
  try_catch
    (if Js.truthy (publicKey webpushSettings)
        && Js.truthy (privateKey webpushSettings)
        && Js.truthy (subscription webpushSettings)
     then
       call (WebpushSetVapidDetails "mailto:example@yourdomain.org"
               (publicKey webpushSettings) (privateKey webpushSettings));;
       log Debug "Sending new webpush notification";;
       call (WebpushSendNotification (subscription webpushSettings) notification)
     else log Debug "Skip Webpush notification")
    (fun error =>
       log Err "An error occured during sending webpush notification";;
       call (Log Err (LError error))).

Definition webpush_rejected (statusCode : Z) (body : string) : Prog unit :=
  if statusCode =? 410 then
    log Debug "Webpush Notification Grant changed! Removing subscription..";;
    call (PatchByTarget "webpush" SubscriptionOff)
  else
    log Err "An error occured during sending Wep-Push Notification!";;
    log Err body.

(** *** [handle] *)

(** The quota [handle] puts in [awsSettings.contingent_left], given the
    stored [aws] section and today's date. *)
Definition contingent_left_of (db : Aws) (today : DateTime) : Z :=
  match last_rekognition db with
  | Some last =>
      if isSame_month last today then
        if 0 <=? contingent_left db then contingent_left db
        else contingent_total db
      else contingent_total db
  | None => contingent_total db
  end.

(** The [awsSettings] object; [new Date()] is only evaluated when
    [last_rekognition] is set. *)
Definition awsSettings_of (db : Aws) : Prog Aws :=
  quota ← match last_rekognition db with
          | Some _ => today ← call NewDate; Ret (contingent_left_of db today)
          | None => Ret (contingent_total db)
          end;
  Ret {| aws_active := aws_active db;
         accessKeyId := accessKeyId db;
         secretAccessKey := secretAccessKey db;
         region := region db;
         contingent_total := contingent_total db;
         contingent_left := quota;
         last_rekognition := last_rekognition db |}.

(** [motionInfo.label || motionInfo.label === null]. *)
Definition label_proceeds (label : Label) : bool :=
  match label with
  | LNull => true
  | LFalse => false
  | LName name => Js.truthy name
  end.

(** A template literal that prints [Camera.settings.rekognition.labels]. *)
Definition show_labels (labels : option (list string)) : string :=
  match labels with
  | Some ls => Js.join ls
  | None => "undefined"
  end.

Definition msg_not_found (cameraName : string) : string :=
  "Camera " +:+ Js.dquote +:+ cameraName +:+ Js.dquote +:+ " not found.".

Definition msg_in_progress : string :=
  "Can not handle movement, another movement currently in progress for this camera.".

Definition msg_at_home (cameraName : string) : string :=
  "Skip motion trigger. At Home is active and " +:+ cameraName
    +:+ " is not excluded!".

Definition msg_not_detected (labels : option (list string)) : string :=
  "Skip handling movement. Configured label (" +:+ show_labels labels
    +:+ ") not detected.".

(** The body of the outer [try] once the camera is found. *)
Definition handle_camera (trigger cameraName : string) (Camera : Camera)
    : Prog Result :=
  SettingsDB ← call SettingsShow;
  let atHome := atHome (general SettingsDB) in
  let exclude := exclude (general SettingsDB) in
  awsSettings ← awsSettings_of (aws SettingsDB);
  let recordingSettings := recordings SettingsDB in
  let telegramSettings :=
    {| tg_active := tg_active (telegram SettingsDB);
       tg_token := tg_token (telegram SettingsDB);
       tg_chatID := tg_chatID (telegram SettingsDB);
       tg_message := tg_message (telegram SettingsDB);
       tg_type := telegramType (cam_settings Camera) |} in
  let webhookSettings :=
    {| wh_active := wh_active (webhook SettingsDB);
       wh_endpoint := webhookUrl (cam_settings Camera) |} in
  let webpushSettings := webpush SettingsDB in
  if negb atHome || (atHome && Js.includes exclude cameraName) then
    log Debug ("New " +:+ trigger +:+ " alert");;
    busy ← call (GetBusy cameraName);
    if negb (default false busy) then
      call (SetBusy cameraName true);;
      motionInfo ← getMotionInfo cameraName trigger recordingSettings;
      if rec_active recordingSettings then
        allowStream ← call (RequestSession cameraName);
        if allowStream : bool then
          imgBuffer ← handleSnapshot cameraName (videoConfig Camera);
          let rk := rekognition (cam_settings Camera) in
          label ←
            (if aws_active awsSettings
                && (0 <? contingent_total awsSettings)
                && (0 <? contingent_left awsSettings)
                && rk_active rk
             then handleImageDetection cameraName awsSettings
                    (rk_labels rk) (rk_confidence rk) (Some imgBuffer)
             else Ret LNull);
          let motionInfo :=
            {| mi_id := mi_id motionInfo;
               mi_camera := mi_camera motionInfo;
               mi_path := mi_path motionInfo;
               mi_storing := mi_storing motionInfo;
               mi_type := mi_type motionInfo;
               mi_timer := mi_timer motionInfo;
               mi_timestamp := mi_timestamp motionInfo;
               mi_trigger := mi_trigger motionInfo;
               mi_imgBuffer := Some imgBuffer;
               mi_label := Some label |} in
          if label_proceeds label then
            notification ← handleNotification motionInfo;
            sendWebhook cameraName notification webhookSettings;;
            sendTelegram cameraName notification recordingSettings
              telegramSettings (Some imgBuffer) true false;;
            handleRecording motionInfo;;
            sendTelegram cameraName notification recordingSettings
              telegramSettings (Some imgBuffer) false true;;
            let result :=
              if String.eqb (rec_type recordingSettings) "Video" then
                {| error := false;
                   message := "Notification send and video stored." |}
              else
                {| error := false;
                   message := "Notification send and snapshot stored." |} in
            sendWebpush cameraName notification webpushSettings;;
            Ret result
          else
            let message := msg_not_detected (rk_labels rk) in
            log Debug message;;
            Ret {| error := true; message := message |}
        else
          Ret {| error := false; message := "Max sessions exceeded." |}
      else
        notification ← handleNotification motionInfo;
        sendWebhook cameraName notification webhookSettings;;
        sendTelegram cameraName notification recordingSettings
          telegramSettings None false false;;
        sendWebpush cameraName notification webpushSettings;;
        Ret {| error := false; message := "Notification sent." |}
    else
      log Warn msg_in_progress;;
      Ret {| error := true; message := msg_in_progress |}
  else
    let message := msg_at_home cameraName in
    log Debug message;;
    Ret {| error := true; message := message |}.

(** The outer [try] block. *)
Definition handle_try (trigger cameraName : string) : Prog Result :=
  Camera ← try_catch (call (FindByName cameraName))
             (fun error => log Warn error;; Ret None);
  match Camera with
  | Some Camera => handle_camera trigger cameraName Camera
  | None => Ret {| error := true; message := msg_not_found cameraName |}
  end.

(** The outer [catch] block. *)
Definition handle_catch (error : Error) : Prog Result :=
  log Err "An error occured during handling motion event";;
  call (Log Err (LError error));;
  Ret {| error := true; message := error |}.

(** The statements after the [try]/[catch], on every path. *)
Definition handle_finish (cameraName : string) (result : Result) : Prog Result :=
  call (SetBusy cameraName false);;
  call (CloseSession cameraName);;
  Ret result.

Definition handle (trigger cameraName : string) (active : bool) : Prog Result :=
  result ← try_catch (handle_try trigger cameraName) handle_catch;
  handle_finish cameraName result.

(** *** Running programs *)

(** The state the handler works on: the module-level [movementHandler]
    object (a missing key reads as undefined) and every call made so far,
    oldest first. *)
Record World := mkWorld
  { movementHandler : gmap string bool;
    trace : list Call }.

(** The collaborators: what each call answers after a given history of
    calls, and the clock. *)
Record Env := mkEnv
  { respond : list Call -> forall c : Call, Outcome (ret c);
    today : list Call -> DateTime;
    now_ms : list Call -> Z }.

(** One call.  The busy flags live in [movementHandler]; the logger, the
    clock and [sessions.closeSession] do not throw; every other call is
    answered by the collaborators. *)
Definition perform (env : Env) (c : Call) (w : World) : Outcome (ret c) * World :=
  let w' := {| movementHandler := movementHandler w; trace := trace w ++ [c] |} in
  match c as c0 return Outcome (ret c0) * World with
  | GetBusy cameraName => (Returned (movementHandler w !! cameraName), w')
  | SetBusy cameraName b =>
      (Returned tt,
       {| movementHandler := <[cameraName := b]> (movementHandler w);
          trace := trace w ++ [c] |})
  | Log _ _ => (Returned tt, w')
  | CloseSession _ => (Returned tt, w')
  | NewDate => (Returned (today env (trace w)), w')
  | DateNow => (Returned (now_ms env (trace w)), w')
  | c0 => (respond env (trace w) c0, w')
  end.

(** A program run to completion with nothing else running in between. *)
Fixpoint run {R : Type} (env : Env) (p : Prog R) (w : World) : Outcome R * World :=
  match p with
  | Ret r => (Returned r, w)
  | Throw e => (Raised e, w)
  | Vis c k => let '(o, w') := perform env c w in run env (k o) w'
  end.

(** A program run up to and including its next awaited call: one turn of
    the event loop.  The rest of the program is handed back. *)
Fixpoint resume {R : Type} (env : Env) (p : Prog R) (w : World) : Prog R * World :=
  match p with
  | Vis c k =>
      let '(o, w') := perform env c w in
      if is_await c then (k o, w') else resume env (k o) w'
  | _ => (p, w)
  end.

(** *** Several calls of [handle] in flight *)

(** The calls of [handle] that have been made and have not returned yet,
    each with what is left of it.  A turn of the event loop resumes one
    of them up to its next awaited call. *)
Definition turn (env : Env) (i : nat) (pool : list (Prog Result)) (w : World)
    : list (Prog Result) * World :=
  match pool !! i with
  | Some p => let '(p', w') := resume env p w in (<[i := p']> pool, w')
  | None => (pool, w)
  end.

Fixpoint turns (env : Env) (order : list nat) (pool : list (Prog Result))
    (w : World) : list (Prog Result) * World :=
  match order with
  | [] => (pool, w)
  | i :: rest => let '(pool', w') := turn env i pool w in turns env rest pool' w'
  end.

(** What a call in the pool has returned, if it has. *)
Definition returned (pool : list (Prog Result)) (i : nat) : option Result :=
  match pool !! i with
  | Some (Ret r) => Some r
  | _ => None
  end.

(** Whether a call in the pool is still pending. *)
Definition pending (pool : list (Prog Result)) (i : nat) : bool :=
  match pool !! i with
  | Some (Vis _ _) => true
  | _ => false
  end.

(** The calls made from history [before] on. *)
Definition since (before : World) (after : World) : list Call :=
  drop (length (trace before)) (trace after).

(** *** Collaborators for the scenarios *)

(** Modelled from the spec: the session gate ([sessions.service], not in
    the sources).  [requestSession] grants a session when the camera's
    count is below the maximum; [closeSession] releases one, with a floor
    at zero.  The count is read off the history of calls. *)
Definition sessions_step (max : nat) (cameraName : string) (count : nat)
    (c : Call) : nat :=
  match c with
  | RequestSession n =>
      if String.eqb n cameraName && Nat.ltb count max then S count else count
  | CloseSession n => if String.eqb n cameraName then Nat.pred count else count
  | _ => count
  end.

Definition sessions_open (max : nat) (cameraName : string) (history : list Call)
    : nat :=
  fold_left (sessions_step max cameraName) history 0%nat.

(** Modelled from the spec: the settings store ([settings.model], not in
    the sources).  [patchByTarget] merges the given keys into a section;
    [show] returns the current snapshot. *)
Definition settings_step (db : SettingsDB) (c : Call) : SettingsDB :=
  match c with
  | PatchByTarget "aws" (AwsQuota quota last) =>
      {| general := general db;
         aws := {| aws_active := aws_active (aws db);
                   accessKeyId := accessKeyId (aws db);
                   secretAccessKey := secretAccessKey (aws db);
                   region := region (aws db);
                   contingent_total := contingent_total (aws db);
                   contingent_left := quota;
                   last_rekognition := Some last |};
         recordings := recordings db;
         telegram := telegram db;
         webhook := webhook db;
         webpush := webpush db |}
  | PatchByTarget "webpush" SubscriptionOff =>
      {| general := general db;
         aws := aws db;
         recordings := recordings db;
         telegram := telegram db;
         webhook := webhook db;
         webpush := {| publicKey := publicKey (webpush db);
                       privateKey := privateKey (webpush db);
                       subscription := "" |} |}
  | _ => db
  end.

Definition settings_after (db : SettingsDB) (history : list Call) : SettingsDB :=
  fold_left settings_step history db.

(** A house: its cameras, its initial settings, the session maximum, what
    the detection service answers and the date. *)
Record House := mkHouse
  { cameras : list Camera;
    settings0 : SettingsDB;
    max_sessions : nat;
    detection : Outcome (list (option DetectedLabel));
    snapshot : Outcome (list byte);
    date0 : DateTime }.

Definition house_respond (h : House) (history : list Call) (c : Call)
    : Outcome (ret c) :=
  match c as c0 return Outcome (ret c0) with
  | GetBusy _ => Returned None
  | SetBusy _ _ => Returned tt
  | Log _ _ => Returned tt
  | NewDate => Returned (date0 h)
  | DateNow => Returned 0
  | FindByName n =>
      Returned (List.find (fun cam => String.eqb (cam_name cam) n) (cameras h))
  | SettingsShow => Returned (settings_after (settings0 h) history)
  | Nanoid => Returned "a1b2c3d4e5"
  | RequestSession n =>
      Returned (Nat.ltb (sessions_open (max_sessions h) n history) (max_sessions h))
  | CloseSession _ => Returned tt
  | RequestSnapshot _ _ => snapshot h
  | DetectLabels _ _ => detection h
  | PatchByTarget _ _ => Returned tt
  | CreateNotification mi =>
      Returned {| n_recordType := mi_type mi;
                  n_name := mi_id mi;
                  n_fileName := mi_id mi +:+ ".jpeg" |}
  | CreateRecording _ => Returned tt
  | NewURL _ => Returned tt
  | GotPost _ _ => Returned tt
  | TelegramStart _ => Returned 1%nat
  | TelegramSend _ _ _ => Returned tt
  | TelegramStop _ => Returned tt
  | WebpushSetVapidDetails _ _ _ => Returned tt
  | WebpushSendNotification _ _ => Returned tt
  end.

Definition house_env (h : House) : Env :=
  {| respond := house_respond h;
     today := fun _ => date0 h;
     now_ms := fun history => 1700000000000 + Z.of_nat (length history) |}.

Definition world0 : World := {| movementHandler := ∅; trace := [] |}.

(** *** Scenarios *)

Definition front_door : Camera :=
  {| cam_name := "Front Door";
     videoConfig := "-i rtsp://front-door/live";
     cam_settings :=
       {| telegramType := "Snapshot";
          webhookUrl := "http://hooks.local/motion";
          rekognition := {| rk_active := false;
                            rk_labels := Some ["person"];
                            rk_confidence := Some 80 |} |} |}.

(** The same camera with image recognition switched on. *)
Definition front_door_rekognition : Camera :=
  {| cam_name := "Front Door";
     videoConfig := "-i rtsp://front-door/live";
     cam_settings :=
       {| telegramType := "Snapshot";
          webhookUrl := "http://hooks.local/motion";
          rekognition := {| rk_active := true;
                            rk_labels := Some ["person"];
                            rk_confidence := Some 80 |} |} |}.

Definition november_3 : DateTime := mkDateTime 2026 11 3 9 30 0.
Definition november_1 : DateTime := mkDateTime 2026 11 1 23 59 59.
Definition october_15 : DateTime := mkDateTime 2026 10 15 12 0 0.

Definition aws_off : Aws :=
  {| aws_active := false; accessKeyId := ""; secretAccessKey := ""; region := "";
     contingent_total := 5000; contingent_left := 5000; last_rekognition := None |}.

Definition aws_on : Aws :=
  {| aws_active := true; accessKeyId := "AKIAEXAMPLE"; secretAccessKey := "secret";
     region := "eu-central-1";
     contingent_total := 5000; contingent_left := 42;
     last_rekognition := Some november_1 |}.


(** The quota used up in October. *)
Definition aws_october : Aws :=
  {| aws_active := true; accessKeyId := "AKIAEXAMPLE"; secretAccessKey := "secret";
     region := "eu-central-1";
     contingent_total := 5000; contingent_left := 0;
     last_rekognition := Some october_15 |}.

(** A stored quota below zero, last used this month. *)
Definition aws_negative : Aws :=
  {| aws_active := true; accessKeyId := "AKIAEXAMPLE"; secretAccessKey := "secret";
     region := "eu-central-1";
     contingent_total := 5000; contingent_left := -1;
     last_rekognition := Some november_1 |}.

Definition settings_with (at_home : bool) (a : Aws) (recording : bool)
    (kind : string) : SettingsDB :=
  {| general := {| atHome := at_home; exclude := ["Garden"] |};
     aws := a;
     recordings := {| rec_active := recording; rec_path := "/var/lib/camera.ui";
                      rec_timer := 10; rec_type := kind |};
     telegram := {| tg_active := true; tg_token := "123:abc"; tg_chatID := "777";
                    tg_message := "Motion at @"; tg_type := "" |};
     webhook := {| wh_active := true; wh_endpoint := "" |};
     webpush := {| publicKey := "pub"; privateKey := "priv";
                   subscription := "endpoint-1" |} |}.

Definition person_and_car : list (option DetectedLabel) :=
  [Some {| Name := "Person"; Confidence := 92 |};
   Some {| Name := "Car"; Confidence := 99 |}].

Definition house (cams : list Camera) (db : SettingsDB) (max : nat)
    (d : Outcome (list (option DetectedLabel))) : House :=
  {| cameras := cams; settings0 := db; max_sessions := max; detection := d;
     snapshot := Returned [xff; xd8]; date0 := november_3 |}.

(** Recording snapshots, no recognition. *)
Definition snapshot_house : House :=
  house [front_door] (settings_with false aws_off true "Snapshot") 1 (Returned []).

(** The result of a call and the calls it made, run alone from [w]. *)
Definition outcome_of {R : Type} (env : Env) (p : Prog R) (w : World)
    : Outcome R * list Call :=
  let '(o, w') := run env p w in (o, since w w').

(** *** Vocabulary for the statements *)



Definition is_log (c : Call) : bool :=
  match c with
  | Log _ _ => true
  | _ => false
  end.

(** A call that changes something outside the handler: a notification, a
    recording, a delivery or a settings patch. *)
Definition is_side_effect (c : Call) : bool :=
  match c with
  | PatchByTarget _ _ | CreateNotification _ | CreateRecording _ | GotPost _ _
  | TelegramStart _ | TelegramSend _ _ _ | TelegramStop _
  | WebpushSetVapidDetails _ _ _ | WebpushSendNotification _ _ => true
  | _ => false
  end.

(** The three AWS credentials are all set. *)
Definition has_credentials (a : Aws) : Prop :=
  accessKeyId a <> "" /\ secretAccessKey a <> "" /\ region a <> "".



(** The first debug line of [handleImageDetection]. *)
Definition analyzing (labels : list string) : Call :=
  Log Debug (LText ("Analyzing image for following labels: " +:+ Js.join labels)).

(** A house whose detection service sees a person and a car. *)
Definition rekognition_house : House :=
  house [front_door_rekognition] (settings_with false aws_on true "Snapshot") 1
    (Returned person_and_car).

(** A house whose detection service fails. *)
Definition rekognition_down_house : House :=
  house [front_door_rekognition] (settings_with false aws_on true "Snapshot") 1
    (Raised "ThrottlingException").


(** What [handleImageDetection] logs after the detection service has
    answered. *)
Definition report (confidence : option Z) (detected : list string)
    (imageLabels : list (option DetectedLabel)) : list Call :=
  Log Debug (LText ("Label with confidence >= "
                      +:+ pretty (Js.num_or confidence 80) +:+ "% "
                      +:+ match detected with
                          | [] => "not found!"
                          | _ => "found: " +:+ Js.join detected
                          end))
  :: match detected with
     | [] => [Log Debug (LImageLabels imageLabels)]
     | _ => []
     end.

(** What the [catch] block of [handleImageDetection] logs. *)
Definition rekognition_failed (e : Error) : list Call :=
  [Log Err (LText "An error occured during image rekognition"); Log Err (LError e)].



(** The clock is read for the quota only when [last_rekognition] is set. *)
Definition clock_read (db : Aws) : list Call :=
  match last_rekognition db with
  | Some _ => [NewDate]
  | None => []
  end.

(** The [awsSettings] object for a stored section and a date. *)
Definition awsSettings_at (db : Aws) (now : DateTime) : Aws :=
  {| aws_active := aws_active db;
     accessKeyId := accessKeyId db;
     secretAccessKey := secretAccessKey db;
     region := region db;
     contingent_total := contingent_total db;
     contingent_left := contingent_left_of db now;
     last_rekognition := last_rekognition db |}.

(** The camera is not skipped by the at-home rule. *)
Definition not_skipped (db : SettingsDB) (cameraName : string) : Prop :=
  atHome (general db) = false \/ Js.includes (exclude (general db)) cameraName = true.






(** Three calls of [handle] for the same camera.  The first runs up to
    its snapshot request, where it is suspended with the lock taken and a
    session granted; the second then runs to its end; the third then
    starts. *)
Definition three_calls : list (Prog Result) :=
  [handle "motion" "Front Door" true;
   handle "motion" "Front Door" true;
   handle "motion" "Front Door" true].

Definition first_suspended : list (Prog Result) * World :=
  turns (house_env snapshot_house) [0; 0; 0; 0]%nat three_calls world0.

Definition second_returned : list (Prog Result) * World :=
  turns (house_env snapshot_house) [1; 1; 1]%nat
    (fst first_suspended) (snd first_suspended).

Definition third_started : list (Prog Result) * World :=
  turns (house_env snapshot_house) [2; 2; 2; 2]%nat
    (fst second_returned) (snd second_returned).

(** The other order: the first call runs to its end before the next one
    starts. *)
Definition first_completed : list (Prog Result) * World :=
  turns (house_env snapshot_house) (repeat 0%nat 13) three_calls world0.

Definition next_after_completion : list (Prog Result) * World :=
  turns (house_env snapshot_house) [2; 2; 2; 2]%nat
    (fst first_completed) (snd first_completed).

(** More houses, one for each way through [handle]. *)
Definition at_home_house : House :=
  house [front_door] (settings_with true aws_off true "Snapshot") 1 (Returned []).

Definition no_session_house : House :=
  house [front_door] (settings_with false aws_off true "Snapshot") 0 (Returned []).

Definition no_recording_house : House :=
  house [front_door] (settings_with false aws_off false "Snapshot") 1 (Returned []).

Definition video_house : House :=
  house [front_door] (settings_with false aws_off true "Video") 1 (Returned []).

Definition only_cars_house : House :=
  house [front_door_rekognition] (settings_with false aws_on true "Snapshot") 1
    (Returned [Some {| Name := "Car"; Confidence := 99 |}]).

Definition camera_offline_house : House :=
  {| cameras := [front_door];
     settings0 := settings_with false aws_off true "Snapshot";
     max_sessions := 1;
     detection := Returned [];
     snapshot := Raised "ffmpeg exited with code 1";
     date0 := november_3 |}.

(** The result of a call run alone from the empty world, and the calls
    among those it made that change something outside the handler. *)
Definition summary (h : House) (cameraName : string) : Outcome Result * list Call :=
  let '(o, calls) :=
    outcome_of (house_env h) (handle "motion" cameraName true) world0 in
  (o, List.filter is_side_effect calls).

(** The last two calls of a run. *)
Definition last_two (h : House) (cameraName : string) : list Call :=
  let calls :=
    snd (outcome_of (house_env h) (handle "motion" cameraName true) world0) in
  drop (length calls - 2) calls.

(** *** Properties of every run *)

(** The calls a program makes when run from [w]. *)
Definition calls_of {R : Type} (env : Env) (p : Prog R) (w : World) : list Call :=
  since w (snd (run env p w)).

(** Every call the program can make, whatever the collaborators answer,
    satisfies [P]. *)
Inductive confined {R : Type} (P : Call -> Prop) : Prog R -> Prop :=
| confined_Ret (r : R) : confined P (Ret r)
| confined_Throw (e : Error) : confined P (Throw e)
| confined_Vis (c : Call) (k : Outcome (ret c) -> Prog R) :
    P c -> (forall o, confined P (k o)) -> confined P (Vis c k).

(** A monitor reads the calls of a run one after the other, from a state
    of its own; [None] is a violation. *)
Fixpoint monitor {St : Type} (d : St -> Call -> option St) (s : St)
    (calls : list Call) : option St :=
  match calls with
  | [] => Some s
  | c :: rest =>
      match d s c with
      | Some s' => monitor d s' rest
      | None => None
      end
  end.

(** The program, started with the monitor in state [s], never violates
    the monitor, whatever the collaborators answer; [Q] holds of the value
    and the monitor state when it returns, [E] when it throws. *)
Fixpoint safe {St R : Type} (d : St -> Call -> option St) (s : St) (p : Prog R)
    (Q : R -> St -> Prop) (E : Error -> St -> Prop) : Prop :=
  match p with
  | Ret r => Q r s
  | Throw e => E e s
  | Vis c k => exists s', d s c = Some s' /\ forall o, safe d s' (k o) Q E
  end.

(** On every path through the program, whatever the collaborators answer,
    at most [n] calls are of the given kind. *)
Inductive at_most {R : Type} (kind : Call -> bool) : nat -> Prog R -> Prop :=
| at_most_Ret (n : nat) (r : R) : at_most kind n (Ret r)
| at_most_Throw (n : nat) (e : Error) : at_most kind n (Throw e)
| at_most_pass (n : nat) (c : Call) (k : Outcome (ret c) -> Prog R) :
    kind c = false -> (forall o, at_most kind n (k o)) -> at_most kind n (Vis c k)
| at_most_count (n : nat) (c : Call) (k : Outcome (ret c) -> Prog R) :
    (forall o, at_most kind n (k o)) -> at_most kind (S n) (Vis c k).

(** The calls that [handle] makes for the camera it is called for name
    that camera. *)
Definition own_camera (cameraName : string) (c : Call) : bool :=
  match c with
  | GetBusy n | SetBusy n _ | FindByName n | RequestSession n | CloseSession n
  | RequestSnapshot n _ => String.eqb n cameraName
  | _ => true
  end.

(** The detection service is called only with recognition active, a
    positive total and a positive quota left, and all three credentials;
    the quota written back is not negative. *)
Definition quota_respected (c : Call) : bool :=
  match c with
  | DetectLabels a _ =>
      aws_active a && (0 <? contingent_total a) && (0 <? contingent_left a)
      && Js.truthy (accessKeyId a) && Js.truthy (secretAccessKey a)
      && Js.truthy (region a)
  | PatchByTarget _ (AwsQuota quota _) => 0 <=? quota
  | _ => true
  end.


(** The calls a handling makes on behalf of a motion event: everything
    but the lookups, the logger, the clock and the busy flag. *)
Definition needs_lock (c : Call) : bool :=
  match c with
  | Nanoid | RequestSession _ | RequestSnapshot _ _ | DetectLabels _ _
  | NewURL _ => true
  | c => is_side_effect c
  end.

(** The monitor of the lock: a call that needs the lock comes after the
    busy flag of the camera has been set. *)
Definition lock_first (cameraName : string) (locked : bool) (c : Call)
    : option bool :=
  match c with
  | SetBusy n true => Some (locked || String.eqb n cameraName)
  | c => if needs_lock c then (if locked then Some locked else None)
         else Some locked
  end.

Definition is_telegram_send (c : Call) : bool :=
  match c with TelegramSend _ _ _ => true | _ => false end.

(** The calls of the handling in the house that records snapshots. *)
Definition snapshot_calls : list Call :=
  calls_of (house_env snapshot_house) (handle "motion" "Front Door" true) world0.



(** The at-home rule skips the camera: at home, and the camera is not in
    the excluded list. *)
Definition skipped (db : SettingsDB) (cameraName : string) : Prop :=
  atHome (general db) = true
  /\ Js.includes (exclude (general db)) cameraName = false.





(** A house whose outgoing connections fail: the webhook address does not
    parse and the chat service refuses messages. *)
Definition cut_off_env (h : House) : Env :=
  {| respond := fun history c =>
       match c as c0 return Outcome (ret c0) with
       | NewURL _ => Raised "Invalid URL"
       | TelegramSend _ _ _ => Raised "ETELEGRAM: 403 Forbidden"
       | c0 => house_respond h history c0
       end;
     today := fun _ => date0 h;
     now_ms := fun history => 1700000000000 + Z.of_nat (length history) |}.



Definition a_notification : Notification :=
  {| n_recordType := "Snapshot"; n_name := "a1b2c3d4e5";
     n_fileName := "a1b2c3d4e5.jpeg" |}.




End Handler.

(** ** The prebuffer service ([PreBuffer]) *)

Module Prebuffer.

(** *** Data *)

(** One box of the fragmented MP4 stream, as the parser yields it. *)
Record Atom := mkAtom
  { type : string; header : list byte; data : list byte }.

(** One entry of the ring [prebufferFmp4]. *)
Record Entry := mkEntry { atom : Atom; time : Z; date : string }.

(** What [startPreBufferSessions] returns: [{ server, process }], the
    ingress listener and the encoder process, as handles. *)
Record Session := mkSession { server : nat; process : nat }.

(** The per-camera state [prebuffer[cameraName]].  The keys are those of
    the object literal in [start]; [events] holds the sockets whose
    [writeAtom] listens to ['atom'], in subscription order, and [killed]
    those whose [cleanup] listens to ['killed'].  [co_process] and
    [co_server] stand for the keys [process] and [server] that [stop]
    reads on this object: the literal has no such key, so they read as
    undefined until something assigns them. *)
Record CameraOptions := mkCameraOptions
  { ffmpegInput : string;
    cameraName : string;
    ffmpegPath : string;
    videoDuration : Z;
    co_time : Z;
    co_date : string;
    prebufferFmp4 : list Entry;
    events : list nat;
    killed : list nat;
    released : bool;
    idrInterval : Z;
    prevIdr : Z;
    ftyp : option Atom;
    moov : option Atom;
    prebufferSession : option Session;
    debug : bool;
    co_process : option nat;
    co_server : option nat }.

(** What the service does to the outside. *)
Inductive Effect :=
| LogDebug (msg : string)
| CreateServer (srv : nat)
| Listen (srv : nat) (port : Z)
| Spawn (proc : nat) (path : string) (args : list string) (stdio : string)
| Kill (proc : nat)
| CloseServer (srv : nat)
| SocketWrite (socket : nat) (bytes : list byte)
| SocketDestroy (socket : nat).

(** The module-level [prebuffer] object, the effects so far (oldest
    first) and the next fresh handle. *)
Record World := mkWorld
  { prebuffer : gmap string CameraOptions;
    effects : list Effect;
    next_handle : nat }.

Record CameraConfig := mkCameraConfig
  { name : string; source : string; cfg_debug : bool }.

Record Config := mkConfig
  { cameras : list CameraConfig;
    videoProcessor : string;
    cfg_videoDuration : Z }.

(** A reading of the clock: [Date.now()] and [moment().format()]. *)
Record Tick := mkTick { now : Z; stamp : string }.

(** *** Setters for the keys the service assigns *)

Definition set_time (t : Tick) (co : CameraOptions) : CameraOptions :=
  mkCameraOptions (ffmpegInput co) (cameraName co) (ffmpegPath co)
    (videoDuration co) (now t) (stamp t) (prebufferFmp4 co) (events co)
    (killed co) (released co) (idrInterval co) (prevIdr co) (ftyp co) (moov co)
    (prebufferSession co) (debug co) (co_process co) (co_server co).

Definition set_ftyp (a : Atom) (co : CameraOptions) : CameraOptions :=
  mkCameraOptions (ffmpegInput co) (cameraName co) (ffmpegPath co)
    (videoDuration co) (co_time co) (co_date co) (prebufferFmp4 co) (events co)
    (killed co) (released co) (idrInterval co) (prevIdr co) (Some a) (moov co)
    (prebufferSession co) (debug co) (co_process co) (co_server co).

Definition set_moov (a : Atom) (co : CameraOptions) : CameraOptions :=
  mkCameraOptions (ffmpegInput co) (cameraName co) (ffmpegPath co)
    (videoDuration co) (co_time co) (co_date co) (prebufferFmp4 co) (events co)
    (killed co) (released co) (idrInterval co) (prevIdr co) (ftyp co) (Some a)
    (prebufferSession co) (debug co) (co_process co) (co_server co).

Definition set_idr (interval prev : Z) (co : CameraOptions) : CameraOptions :=
  mkCameraOptions (ffmpegInput co) (cameraName co) (ffmpegPath co)
    (videoDuration co) (co_time co) (co_date co) (prebufferFmp4 co) (events co)
    (killed co) (released co) interval prev (ftyp co) (moov co)
    (prebufferSession co) (debug co) (co_process co) (co_server co).

Definition set_ring (ring : list Entry) (co : CameraOptions) : CameraOptions :=
  mkCameraOptions (ffmpegInput co) (cameraName co) (ffmpegPath co)
    (videoDuration co) (co_time co) (co_date co) ring (events co)
    (killed co) (released co) (idrInterval co) (prevIdr co) (ftyp co) (moov co)
    (prebufferSession co) (debug co) (co_process co) (co_server co).

Definition set_listeners (on_atom on_killed : list nat) (co : CameraOptions)
    : CameraOptions :=
  mkCameraOptions (ffmpegInput co) (cameraName co) (ffmpegPath co)
    (videoDuration co) (co_time co) (co_date co) (prebufferFmp4 co) on_atom
    on_killed (released co) (idrInterval co) (prevIdr co) (ftyp co) (moov co)
    (prebufferSession co) (debug co) (co_process co) (co_server co).

Definition set_session (s : option Session) (co : CameraOptions) : CameraOptions :=
  mkCameraOptions (ffmpegInput co) (cameraName co) (ffmpegPath co)
    (videoDuration co) (co_time co) (co_date co) (prebufferFmp4 co) (events co)
    (killed co) (released co) (idrInterval co) (prevIdr co) (ftyp co) (moov co)
    s (debug co) (co_process co) (co_server co).

Definition emit (e : Effect) (w : World) : World :=
  {| prebuffer := prebuffer w; effects := effects w ++ [e];
     next_handle := next_handle w |}.

Definition emit_all (es : list Effect) (w : World) : World :=
  {| prebuffer := prebuffer w; effects := effects w ++ es;
     next_handle := next_handle w |}.

Definition put (cameraName : string) (co : CameraOptions) (w : World) : World :=
  {| prebuffer := <[cameraName := co]> (prebuffer w); effects := effects w;
     next_handle := next_handle w |}.

Definition fresh (w : World) : nat * World :=
  (next_handle w,
   {| prebuffer := prebuffer w; effects := effects w;
      next_handle := S (next_handle w) |}).

(** *** [start], [startPreBufferSessions] and [stop] *)

Definition ffmpegOutput (destination : string) : list string :=
  ["-f"; "mp4"; "-vcodec"; "copy"; "-movflags";
   "frag_keyframe+empty_moov+default_base_moof"; destination].

(** [ports] is the port [cameraUtils.listenServer] finds for a server.
    Without a state for the camera the first property read throws; [start]
    always creates the state first. *)
Definition startPreBufferSessions (ports : nat -> Z) (cameraName : string)
    (w : World) : option Session * World :=
  match prebuffer w !! cameraName with
  | None => (None, w)
  | Some cameraOptions =>
      match prebufferSession cameraOptions with
      | Some session => (Some session, w)
      | None =>
          let w := emit (LogDebug "Starting Prebuffer server") w in
          let '(fmp4OutputServer, w) := fresh w in
          let w := emit (CreateServer fmp4OutputServer) w in
          let fmp4Port := ports fmp4OutputServer in
          let w := emit (Listen fmp4OutputServer fmp4Port) w in
          let destination := "tcp://127.0.0.1:" +:+ pretty fmp4Port in
          let arguments_ :=
            Js.split_space (ffmpegInput cameraOptions) ++ ffmpegOutput destination in
          let w := emit (LogDebug (ffmpegPath cameraOptions +:+ " "
                                     +:+ String.concat " " arguments_)) w in
          let stdioValue := if debug cameraOptions then "pipe" else "ignore" in
          let '(cp, w) := fresh w in
          let w := emit (Spawn cp (ffmpegPath cameraOptions) arguments_ stdioValue) w in
          (Some {| server := fmp4OutputServer; process := cp |}, w)
      end
  end.

(** The object literal of [start]. *)
Definition initial (config : Config) (camera : CameraConfig) (t : Tick)
    : CameraOptions :=
  {| ffmpegInput := source camera;
     cameraName := name camera;
     ffmpegPath := videoProcessor config;
     videoDuration := cfg_videoDuration config;
     co_time := now t;
     co_date := stamp t;
     prebufferFmp4 := [];
     events := [];
     killed := [];
     released := false;
     idrInterval := 0;
     prevIdr := 0;
     ftyp := None;
     moov := None;
     prebufferSession := None;
     debug := cfg_debug camera;
     co_process := None;
     co_server := None |}.

(** One iteration of the loop of [start]; [t] is what the clock reads. *)
Definition start_camera (ports : nat -> Z) (config : Config) (t : Tick)
    (w : World) (camera : CameraConfig) : World :=
  let w := put (name camera) (initial config camera t) w in
  let '(session, w) := startPreBufferSessions ports (name camera) w in
  match prebuffer w !! name camera with
  | Some cameraOptions => put (name camera) (set_session session cameraOptions) w
  | None => w
  end.

Definition start (ports : nat -> Z) (config : Config) (t : Tick) (w : World)
    : World :=
  let w := emit (LogDebug "Starting camera prebuffering") w in
  fold_left (start_camera ports config t) (cameras config) w.

Definition stop (cameraName : string) (w : World) : World :=
  match prebuffer w !! cameraName with
  | Some cameraOptions =>
      let w := emit (LogDebug "Stopping prebuffering..") w in
      let w := match co_process cameraOptions with
               | Some p => emit (Kill p) w
               | None => w
               end in
      match co_server cameraOptions with
      | Some srv => emit (CloseServer srv) w
      | None => w
      end
  | None => w
  end.

(** *** Ingestion: the connection handler of [fmp4OutputServer] *)

(** The first statement of the connection handler: the listener stops
    accepting further producers. *)
Definition fmp4_connection (fmp4OutputServer : nat) (w : World) : World :=
  emit (CloseServer fmp4OutputServer) w.

(** The [while] loop that shifts entries off the front of the ring. *)
Fixpoint evict (threshold : Z) (ring : list Entry) : list Entry :=
  match ring with
  | e :: rest => if time e <? threshold then evict threshold rest else ring
  | [] => []
  end.

(** The [if]/[else if]/[else] of the [for await] loop: the first atom is
    kept as [ftyp], the next as [moov], every later one is pushed on the
    ring. *)
Definition store_atom (t : Tick) (a : Atom) (co : CameraOptions) : CameraOptions :=
  match ftyp co with
  | None => set_ftyp a co
  | Some _ =>
      match moov co with
      | None => set_moov a co
      | Some _ =>
          let co :=
            if String.eqb (type a) "mdat" then
              set_idr (if prevIdr co =? 0 then idrInterval co
                       else now t - prevIdr co)
                      (now t) co
            else co in
          set_ring (prebufferFmp4 co
                      ++ [{| atom := a; time := now t; date := stamp t |}]) co
      end
  end.

(** The body of the [for await] loop on the state of the camera: the
    time stamps, [store_atom], then the eviction loop. *)
Definition ingest_atom (t : Tick) (a : Atom) (cameraOptions : CameraOptions)
    : CameraOptions :=
  let co := store_atom t a (set_time t cameraOptions) in
  set_ring (evict (now t - videoDuration co - 100) (prebufferFmp4 co)) co.

Definition ingest_atoms (inputs : list (Tick * Atom)) (co : CameraOptions)
    : CameraOptions :=
  fold_left (fun co input => ingest_atom (fst input) (snd input) co) inputs co.

(** [socket.write(Buffer.concat([atom.header, atom.data]))]. *)
Definition atom_bytes (a : Atom) : list byte := header a ++ data a.

Definition writeAtom (socket : nat) (a : Atom) : Effect :=
  SocketWrite socket (atom_bytes a).

(** One iteration of the loop on the world: the state is updated and the
    atom is emitted to every ['atom'] listener. *)
Definition ingest (cameraName : string) (w : World) (input : Tick * Atom) : World :=
  match prebuffer w !! cameraName with
  | Some cameraOptions =>
      let co := ingest_atom (fst input) (snd input) cameraOptions in
      emit_all (List.map (fun socket => writeAtom socket (snd input)) (events co))
        (put cameraName co w)
  | None => w
  end.

Definition ingest_all (cameraName : string) (inputs : list (Tick * Atom))
    (w : World) : World :=
  fold_left (ingest cameraName) inputs w.

(** *** [getVideo] *)

(** The [for] loop over the ring in the connection handler: the atoms it
    writes, with [needMoof] as loop state. *)
Fixpoint replay (threshold : Z) (needMoof : bool) (ring : list Entry) : list Atom :=
  match ring with
  | [] => []
  | e :: rest =>
      if time e <? threshold then replay threshold needMoof rest
      else if needMoof && negb (String.eqb (type (atom e)) "moof")
      then replay threshold needMoof rest
      else atom e :: replay threshold false rest
  end.

Definition getVideo (ports : nat -> Z) (cameraName : string)
    (requestedPrebuffer : Z) (w : World) : list string * nat * World :=
  let '(server, w) := fresh w in
  let w := emit (CreateServer server) w in
  let port := ports server in
  let w := emit (Listen server port) w in
  (["-f"; "mp4"; "-i"; "tcp://127.0.0.1:" +:+ pretty port], server, w).

(** The safety timer of [getVideo]. *)
Definition getVideo_timeout (server : nat) (w : World) : World :=
  emit (CloseServer server) w.

(** The connection handler of the server of [getVideo], run when a viewer
    connects on [socket] at time [now]. *)
Definition getVideo_connection (cameraName : string) (requestedPrebuffer : Z)
    (server socket : nat) (now : Z) (w : World) : World :=
  let w := emit (CloseServer server) w in
  match prebuffer w !! cameraName with
  | None => w
  | Some cameraOptions =>
      let atoms :=
        option_list (ftyp cameraOptions) ++ option_list (moov cameraOptions)
          ++ replay (now - requestedPrebuffer) true (prebufferFmp4 cameraOptions) in
      let w := emit_all (List.map (writeAtom socket) atoms) w in
      put cameraName
        (set_listeners (events cameraOptions ++ [socket])
           (killed cameraOptions ++ [socket]) cameraOptions) w
  end.

(** [cleanup], for the viewer on [socket]. *)
Definition cleanup (cameraName : string) (socket : nat) (w : World) : World :=
  let w := emit (LogDebug "Prebuffer request ended") w in
  let w :=
    match prebuffer w !! cameraName with
    | Some cameraOptions =>
        put cameraName
          (set_listeners
             (List.filter (fun s => negb (Nat.eqb s socket)) (events cameraOptions))
             (List.filter (fun s => negb (Nat.eqb s socket)) (killed cameraOptions))
             cameraOptions) w
    | None => w
    end in
  emit (SocketDestroy socket) w.

(** The bytes written to a socket so far. *)
Definition written (socket : nat) (es : list Effect) : list byte :=
  flat_map (fun e => match e with
                     | SocketWrite s bytes => if Nat.eqb s socket then bytes else []
                     | _ => []
                     end) es.

(** *** Vocabulary for the statements *)

(** The clock does not go backwards over the atoms ingested. *)
Definition clock_monotone (inputs : list (Tick * Atom)) : Prop :=
  StronglySorted (fun i j => now (fst i) <= now (fst j)) inputs.




(** The entries from the first ['moof'] atom on. *)
Fixpoint from_first_moof (entries : list Entry) : list Entry :=
  match entries with
  | [] => []
  | e :: rest =>
      if String.eqb (type (atom e)) "moof" then entries else from_first_moof rest
  end.

(** The part of the ring a viewer is sent, as the spec words it: the
    entries with [time >= now - requestedPrebuffer], from the first
    ['moof'] among them on. *)
Definition replay_window (now requestedPrebuffer : Z) (ring : list Entry)
    : list Atom :=
  List.map atom
    (from_first_moof
       (List.filter (fun e => now - requestedPrebuffer <=? time e) ring)).

(** The bytes of a sequence of atoms on the wire. *)
Definition wire (atoms : list Atom) : list byte :=
  flat_map atom_bytes atoms.

(** *** A camera for the scenarios *)

Definition garage_config : Config :=
  {| cameras := [{| name := "Garage"; source := "-i rtsp://garage/live";
                    cfg_debug := false |}];
     videoProcessor := "ffmpeg";
     cfg_videoDuration := 4000 |}.

Definition ports0 (handle : nat) : Z := 50000 + Z.of_nat handle.

Definition empty_world : World :=
  {| prebuffer := ∅; effects := []; next_handle := 0 |}.

Definition box (t : string) (payload : list byte) : Atom :=
  {| type := t; header := [x00; x00; x00; x09]; data := payload |}.

(** The garage camera as [start] leaves it, and a feed for it: the two
    initialization atoms, then fragments one second apart. *)
Definition garage : CameraOptions :=
  initial garage_config
    {| name := "Garage"; source := "-i rtsp://garage/live"; cfg_debug := false |}
    {| now := 1000; stamp := "t0" |}.

Definition feed : list (Tick * Atom) :=
  [({| now := 1000; stamp := "t1" |}, box "ftyp" [x01]);
   ({| now := 1001; stamp := "t2" |}, box "moov" [x02]);
   ({| now := 2000; stamp := "t3" |}, box "moof" [x03]);
   ({| now := 2000; stamp := "t4" |}, box "mdat" [x04]);
   ({| now := 5000; stamp := "t5" |}, box "moof" [x05]);
   ({| now := 5001; stamp := "t6" |}, box "mdat" [x06]);
   ({| now := 7000; stamp := "t7" |}, box "moof" [x07])].

(** A feed during which the clock is set back by half a second. *)
Definition feed_clock_set_back : list (Tick * Atom) :=
  [({| now := 1000; stamp := "t1" |}, box "ftyp" [x01]);
   ({| now := 1001; stamp := "t2" |}, box "moov" [x02]);
   ({| now := 9000; stamp := "t3" |}, box "moof" [x03]);
   ({| now := 8500; stamp := "t4" |}, box "mdat" [x04]);
   ({| now := 13000; stamp := "t5" |}, box "moof" [x05])].

(** The garage camera in a world: started, fed, one viewer asking for the
    last 2.5 seconds at second 7, then two more atoms live. *)
Definition garage_fed : World :=
  ingest_all "Garage" feed
    (start ports0 garage_config {| now := 1000; stamp := "t0" |} empty_world).

Definition live_feed : list (Tick * Atom) :=
  [({| now := 7001; stamp := "t8" |}, box "mdat" [x08]);
   ({| now := 9000; stamp := "t9" |}, box "moof" [x09])].

(** The state of the garage camera when the viewer connects. *)
Definition garage_state : CameraOptions :=
  default garage (prebuffer garage_fed !! "Garage").

(** The viewer of the scenario: socket 7 on server 2, connecting at
    [now = 7000] and asking for the last 1999 milliseconds, then the live
    atoms. *)
Definition garage_viewed : World :=
  ingest_all "Garage" live_feed
    (getVideo_connection "Garage" 1999 2 7 7000 garage_fed).

(** The garage camera started, and then stopped. *)
Definition garage_started : World :=
  start ports0 garage_config {| now := 1000; stamp := "t0" |} empty_world.

Definition garage_stopped : World := stop "Garage" garage_started.

(** No camera state in the world has the keys [process] or [server]. *)
Definition no_handle_keys (w : World) : Prop :=
  forall cameraName co,
    prebuffer w !! cameraName = Some co ->
    co_process co = None /\ co_server co = None.

Definition is_spawn (e : Effect) : bool :=
  match e with
  | Spawn _ _ _ _ => true
  | _ => false
  end.

Definition is_create_server (e : Effect) : bool :=
  match e with
  | CreateServer _ => true
  | _ => false
  end.

(** The camera has a session on record in [w], and the listener and the
    encoder of that session have been started. *)
Definition session_running (ports : nat -> Z) (path : string) (w : World)
    (cameraName : string) : Prop :=
  exists co s,
    prebuffer w !! cameraName = Some co
    /\ prebufferSession co = Some s
    /\ In (CreateServer (server s)) (effects w)
    /\ In (Listen (server s) (ports (server s))) (effects w)
    /\ exists args stdio, In (Spawn (process s) path args stdio) (effects w).

(** The fed garage camera with two viewers, on the sockets 7 and 8. *)
Definition garage_two_viewers : World :=
  getVideo_connection "Garage" 1999 3 8 7000
    (getVideo_connection "Garage" 1999 2 7 7000 garage_fed).

Definition two_viewers_state : CameraOptions :=
  default garage (prebuffer garage_two_viewers !! "Garage").

End Prebuffer.

(** ** Facts about the motion handler *)

Module HandlerFacts.
Import Handler.
Local Open Scope prog_scope.

(** *** Running composed programs *)

Lemma run_bind {A B : Type} (env : Env) (p : Prog A) (f : A -> Prog B) (w : World) :
  run env (bind p f) w =
  match run env p w with
  | (Returned a, w') => run env (f a) w'
  | (Raised e, w') => (Raised e, w')
  end.
Proof.
  revert w. induction p as [a | e | c k IH]; intros w; simpl; try reflexivity.
  destruct (perform env c w) as [o w']. apply IH.
Qed.

Lemma run_try_catch {A : Type} (env : Env) (p : Prog A) (h : Error -> Prog A)
    (w : World) :
  run env (try_catch p h) w =
  match run env p w with
  | (Returned a, w') => (Returned a, w')
  | (Raised e, w') => run env (h e) w'
  end.
Proof.
  revert w. induction p as [a | e | c k IH]; intros w; simpl; try reflexivity.
  destruct (perform env c w) as [o w']. apply IH.
Qed.

(** Calls are only ever added at the end of the trace. *)
Lemma perform_trace (env : Env) (c : Call) (w : World) :
  trace (snd (perform env c w)) = trace w ++ [c].
Proof. destruct c; reflexivity. Qed.

Lemma run_trace {R : Type} (env : Env) (p : Prog R) (w : World) :
  exists calls, trace (snd (run env p w)) = trace w ++ calls.
Proof.
  revert w. induction p as [a | e | c k IH]; intros w; simpl.
  - exists []. by rewrite app_nil_r.
  - exists []. by rewrite app_nil_r.
  - pose proof (perform_trace env c w) as Hc.
    destruct (perform env c w) as [o w']. simpl in Hc.
    destruct (IH o w') as [calls Hcalls].
    exists (c :: calls). rewrite Hcalls, Hc, <- app_assoc. reflexivity.
Qed.

Lemma since_app (w w' : World) (calls : list Call) :
  trace w' = trace w ++ calls -> since w w' = calls.
Proof. intros H. unfold since. rewrite H. apply drop_app_length. Qed.



Lemma run_handle_finish (env : Env) (cameraName : string) (result : Result)
    (w : World) :
  run env (handle_finish cameraName result) w =
  (Returned result,
   {| movementHandler := <[cameraName := false]> (movementHandler w);
      trace := trace w ++ [SetBusy cameraName false; CloseSession cameraName] |}).
Proof. unfold handle_finish. simpl. rewrite <- app_assoc. reflexivity. Qed.


(** *** The camera is not found *)

Lemma run_call (env : Env) (c : Call) (w : World) :
  run env (call c) w = perform env c w.
Proof.
  unfold call. simpl. destruct (perform env c w) as [[a | e] w']; reflexivity.
Qed.




(** *** The quota *)

(** C5, as stated, does not hold: a stored quota below zero is not used,
    even when the last recognition was this month. *)
Lemma negative_quota_is_not_used :
  ~ (forall (db : Aws) (now last : DateTime),
        last_rekognition db = Some last ->
        year last = year now -> month last = month now ->
        contingent_left_of db now = contingent_left db).
Proof.
  intros H.
  specialize (H aws_negative november_3 november_1 eq_refl eq_refl eq_refl).
  vm_compute in H. discriminate.
Qed.

(** C5, amended. The quota [handle] works with is [contingent_total] when
    [last_rekognition] is absent or not in the month of the current date
    (so a quota of 0 left over from a previous month counts as
    [contingent_total]); when [last_rekognition] is in the current month
    it is the stored [contingent_left] if that is at least 0, and
    [contingent_total] otherwise. *)
Theorem quota_of_settings (env : Env) (db : Aws) (w : World) :
  exists (s : Aws) (w' : World),
    run env (awsSettings_of db) w = (Returned s, w')
    /\ contingent_total s = contingent_total db
    /\ (last_rekognition db = None -> contingent_left s = contingent_total db)
    /\ (forall last, last_rekognition db = Some last ->
          (year last <> year (today env (trace w))
           \/ month last <> month (today env (trace w))) ->
          contingent_left s = contingent_total db)
    /\ (forall last, last_rekognition db = Some last ->
          year last = year (today env (trace w)) ->
          month last = month (today env (trace w)) ->
          (0 <= contingent_left db -> contingent_left s = contingent_left db)
          /\ (contingent_left db < 0 -> contingent_left s = contingent_total db)).
Proof.
  unfold awsSettings_of, contingent_left_of, isSame_month.
  destruct (last_rekognition db) as [last | ] eqn:Hlast; simpl.
  - eexists _, _. split; [reflexivity |]. simpl. split; [reflexivity |].
    split; [discriminate |]. split.
    + intros last' [= <-] [Hy | Hm].
      * apply Z.eqb_neq in Hy. by rewrite Hy.
      * apply Z.eqb_neq in Hm. rewrite Hm. by rewrite andb_false_r.
    + intros last' [= <-] Hy Hm.
      apply Z.eqb_eq in Hy, Hm. rewrite Hy, Hm. simpl. split; intros Hsign.
      * apply Z.leb_le in Hsign. by rewrite Hsign.
      * apply Z.leb_gt in Hsign. by rewrite Hsign.
  - eexists _, _. split; [reflexivity |]. simpl. split; [reflexivity |].
    split; [reflexivity |]. split; intros last'; discriminate.
Qed.

(** The rollover of the spec: the quota was used up on 15 October, today
    is 3 November, and the quota counts as [contingent_total] again.  A
    quota of 42 left on 1 November is still 42; a stored quota of -1
    counts as [contingent_total]. *)
Lemma quota_of_settings_witness :
  (exists (s : Aws) (w' : World),
      run (house_env snapshot_house) (awsSettings_of aws_october) world0
      = (Returned s, w')
      /\ contingent_left s = 5000)
  /\ (exists (s : Aws) (w' : World),
        run (house_env snapshot_house) (awsSettings_of aws_on) world0
        = (Returned s, w')
        /\ contingent_left s = 42)
  /\ (exists (s : Aws) (w' : World),
        run (house_env snapshot_house) (awsSettings_of aws_negative) world0
        = (Returned s, w')
        /\ contingent_left s = 5000).
Proof.
  split; [ | split].
  - destruct (quota_of_settings (house_env snapshot_house) aws_october world0)
      as (s & w' & Hrun & _ & _ & Hother & _).
    exists s, w'. split; [exact Hrun |].
    apply (Hother october_15 eq_refl). right. simpl. lia.
  - destruct (quota_of_settings (house_env snapshot_house) aws_on world0)
      as (s & w' & Hrun & _ & _ & _ & Hsame).
    exists s, w'. split; [exact Hrun |].
    apply (Hsame november_1 eq_refl eq_refl eq_refl). simpl. lia.
  - destruct (quota_of_settings (house_env snapshot_house) aws_negative world0)
      as (s & w' & Hrun & _ & _ & _ & Hsame).
    exists s, w'. split; [exact Hrun |].
    apply (Hsame november_1 eq_refl eq_refl eq_refl). simpl. lia.
Defined.

(** *** Detection *)

Lemma truthy_true (s : string) : s <> "" -> Js.truthy s = true.
Proof.
  intros H. unfold Js.truthy. destruct (String.eqb_spec s ""); [done | reflexivity].
Qed.


Lemma credentials_true (a : Aws) :
  has_credentials a ->
  Js.truthy (accessKeyId a) && Js.truthy (secretAccessKey a) && Js.truthy (region a)
  = true.
Proof. intros (H1 & H2 & H3). by rewrite !truthy_true. Qed.





(** [handleImageDetection] with credentials and configured labels, in
    full: the detection service is called once; when it answers, the
    quota patch follows; whatever throws is caught and gives [false]. *)
Lemma run_detection (env : Env) (cameraName : string) (a : Aws) (ls : list string)
    (confidence : option Z) (img : option (list byte)) (w : World) :
  has_credentials a ->
  run env (handleImageDetection cameraName a (Some ls) confidence img) w =
  let h1 := trace w ++ [analyzing ls] in
  match respond env h1 (DetectLabels a img) with
  | Raised e =>
      (Returned LFalse,
       {| movementHandler := movementHandler w;
          trace := h1 ++ DetectLabels a img :: rekognition_failed e |})
  | Returned resp =>
      let detected := detect (Some ls) confidence resp in
      let h2 := h1 ++ DetectLabels a img :: report confidence detected resp in
      let patch :=
        PatchByTarget "aws" (AwsQuota (contingent_left a - 1) (today env h2)) in
      match respond env (h2 ++ [NewDate]) patch with
      | Returned _ =>
          (Returned match detected with
                    | [] => LFalse
                    | first :: _ => LName first
                    end,
           {| movementHandler := movementHandler w;
              trace := h2 ++ [NewDate; patch] |})
      | Raised e =>
          (Returned LFalse,
           {| movementHandler := movementHandler w;
              trace := h2 ++ [NewDate; patch] ++ rekognition_failed e |})
      end
  end.
Proof.
  intros Hc. unfold handleImageDetection, analyzing, report, rekognition_failed.
  rewrite (credentials_true _ Hc). simpl.
  destruct (respond env (trace w ++ [_]) (DetectLabels a img)) as [resp | e]; simpl.
  - destruct (detect (Some ls) confidence resp) as [ | first rest]; simpl;
      rewrite <- !app_assoc; simpl;
      match goal with
      | |- context [respond env ?h ?c] => destruct (respond env h c) as [[] | e]
      end; simpl; rewrite <- ?app_assoc; reflexivity.
  - rewrite <- !app_assoc. reflexivity.
Qed.





Example gate_example_returns_Person :
  fst (run (house_env rekognition_house)
         (handleImageDetection "Front Door" aws_on (Some ["person"]) (Some 80)
            (Some [xff; xd8]))
         world0)
  = Returned (LName "Person").
Proof. vm_compute. reflexivity. Qed.

(** C7. With credentials and configured labels, whatever the detection
    service returns (wanted labels or none), the next collaborator call is
    the quota patch: [patchByTarget('aws', ...)] with [contingent_left]
    one less than the quota handed in and [last_rekognition] the current
    date.  When the detection service throws, the function returns
    [false], only logs the error, and makes no patch. *)
Theorem quota_patch_follows_detection (env : Env) (cameraName : string) (a : Aws)
    (ls : list string) (confidence : option Z) (img : option (list byte))
    (w : World) :
  has_credentials a ->
  exists (r : Outcome Label) (w' : World),
    run env (handleImageDetection cameraName a (Some ls) confidence img) w = (r, w')
    /\ match respond env (trace w ++ [analyzing ls]) (DetectLabels a img) with
       | Returned resp =>
           exists logs rest,
             since w w'
             = [analyzing ls; DetectLabels a img] ++ logs
                 ++ [NewDate;
                     PatchByTarget "aws"
                       (AwsQuota (contingent_left a - 1)
                          (today env (trace w ++ [analyzing ls; DetectLabels a img]
                                        ++ logs)))]
                 ++ rest
             /\ forallb is_log logs = true
             /\ forallb is_log rest = true
       | Raised e =>
           r = Returned LFalse
           /\ since w w' = [analyzing ls; DetectLabels a img] ++ rekognition_failed e
       end.
Proof.
  intros Hc. rewrite run_detection by exact Hc. simpl.
  destruct (respond env (trace w ++ [analyzing ls]) (DetectLabels a img))
    as [resp | e].
  - set (detected := detect (Some ls) confidence resp).
    assert (forallb is_log (report confidence detected resp) = true) as Hlogs.
    { unfold report. by destruct detected. }
    assert ((trace w ++ [analyzing ls]) ++ DetectLabels a img :: report confidence detected resp
            = trace w ++ [analyzing ls; DetectLabels a img] ++ report confidence detected resp)
      as Hh by (rewrite <- app_assoc; reflexivity).
    rewrite Hh.
    match goal with
    | |- context [respond env ?h ?c] => destruct (respond env h c) as [[] | e]
    end.
    + eexists _, _. split; [reflexivity |].
      exists (report confidence detected resp), []. split; [ | by split].
      apply since_app. simpl. rewrite <- !app_assoc. reflexivity.
    + eexists _, _. split; [reflexivity |].
      exists (report confidence detected resp), (rekognition_failed e).
      split; [ | by split].
      apply since_app. simpl. rewrite <- !app_assoc. reflexivity.
  - eexists _, _. split; [reflexivity |]. split; [reflexivity |].
    apply since_app. simpl. rewrite <- !app_assoc. reflexivity.
Qed.

Lemma quota_patch_follows_detection_witness :
  exists (r : Outcome Label) (w' : World),
    run (house_env rekognition_house)
      (handleImageDetection "Front Door" aws_on (Some ["person"]) (Some 80)
         (Some [xff; xd8])) world0 = (r, w')
    /\ exists logs rest,
         since world0 w'
         = [analyzing ["person"]; DetectLabels aws_on (Some [xff; xd8])] ++ logs
             ++ [NewDate; PatchByTarget "aws" (AwsQuota 41 november_3)] ++ rest
         /\ forallb is_log logs = true
         /\ forallb is_log rest = true.
Proof.
  apply (quota_patch_follows_detection (house_env rekognition_house) "Front Door"
           aws_on ["person"] (Some 80) (Some [xff; xd8]) world0).
  repeat split; discriminate.
Defined.

(** The detection service is down: [false] comes back and the quota is
    left alone. *)
Example detection_down_no_patch :
  outcome_of (house_env rekognition_down_house)
    (handleImageDetection "Front Door" aws_on (Some ["person"]) (Some 80)
       (Some [xff; xd8])) world0
  = (Returned LFalse,
     [analyzing ["person"]; DetectLabels aws_on (Some [xff; xd8])]
       ++ rekognition_failed "ThrottlingException").
Proof. vm_compute. reflexivity. Qed.

(** *** Through [handle] *)

Lemma run_awsSettings_of (env : Env) (db : Aws) (w : World) :
  run env (awsSettings_of db) w =
  (Returned (awsSettings_at db (today env (trace w))),
   {| movementHandler := movementHandler w;
      trace := trace w ++ clock_read db |}).
Proof.
  unfold awsSettings_of, awsSettings_at, clock_read, contingent_left_of.
  destruct (last_rekognition db) as [last | ]; simpl.
  - reflexivity.
  - rewrite app_nil_r. by destruct w.
Qed.

Ltac tidy := cbn [movementHandler trace run andb]; cbv beta iota zeta.
Ltac flat := repeat first [rewrite <- app_assoc | progress cbn [app]].

(** Run the call that is next in the program of the goal. *)
Ltac run_the_call :=
  match goal with
  | |- context [@run ?T ?e (call ?c) ?w] =>
      change (@run T e (call c) w) with (@run (ret c) e (call c) w);
      rewrite (run_call e c w)
  end; unfold perform; tidy; flat.
Ltac run_call_step := rewrite run_bind; run_the_call.

Lemma not_skipped_true (db : SettingsDB) (cameraName : string) :
  not_skipped db cameraName ->
  negb (atHome (general db))
  || atHome (general db) && Js.includes (exclude (general db)) cameraName = true.
Proof. intros [-> | ->]; [reflexivity |]. by destruct (atHome (general db)). Qed.




(** *** Two calls for one camera *)

(** A call that finds the camera busy is turned away, and then runs the
    cleanup all the same: it sets the busy flag to false and calls
    [sessions.closeSession]. *)
Lemma busy_call_is_rejected_and_unlocks (env : Env) (trigger cameraName : string)
    (active : bool) (w : World) (cam : Camera) (db : SettingsDB) :
  respond env (trace w) (FindByName cameraName) = Returned (Some cam) ->
  respond env (trace w ++ [FindByName cameraName]) SettingsShow = Returned db ->
  not_skipped db cameraName ->
  movementHandler w !! cameraName = Some true ->
  exists w',
    run env (handle trigger cameraName active) w
    = (Returned {| error := true; message := msg_in_progress |}, w')
    /\ movementHandler w' !! cameraName = Some false
    /\ since w w'
       = [FindByName cameraName; SettingsShow] ++ clock_read (aws db)
           ++ [Log Debug (LText ("New " +:+ trigger +:+ " alert"));
               GetBusy cameraName; Log Warn (LText msg_in_progress);
               SetBusy cameraName false; CloseSession cameraName].
Proof.
  intros Hfind Hshow Hhome Hbusy.
  unfold handle, handle_try.
  rewrite run_bind, run_try_catch, run_bind, run_try_catch. run_the_call.
  rewrite Hfind. tidy. unfold handle_camera.
  run_call_step. rewrite Hshow. tidy.
  rewrite run_bind, run_awsSettings_of. tidy. flat.
  rewrite (not_skipped_true db cameraName Hhome). tidy.
  unfold log. run_call_step. run_call_step. rewrite Hbusy.
  change (negb (default false (Some true))) with false. tidy.
  run_call_step. rewrite run_handle_finish. tidy.
  eexists. split; [reflexivity |]. split.
  - apply lookup_insert_eq.
  - apply since_app. tidy. flat. reflexivity.
Qed.

(** C1. The code does not keep the lock for the handling in flight.  The
    first call is suspended at its snapshot request, with the busy flag
    set and its session held.  The second call returns the
    in-progress message, but on its way out it sets the busy flag to
    false and calls [sessions.closeSession]: the first call is still
    pending, the flag is false and no session is counted as open.  A third
    call that arrives now is accepted, sets the flag and is granted the
    camera's only session, so two handlings are in flight.  (When the
    first call has completed before the next one arrives, the next one
    proceeds normally.) *)
Theorem second_call_releases_the_lock :
  (pending (fst first_suspended) 0 = true
   /\ movementHandler (snd first_suspended) !! "Front Door" = Some true
   /\ sessions_open 1 "Front Door" (trace (snd first_suspended)) = 1%nat)
  /\ (returned (fst second_returned) 1
      = Some {| error := true; message := msg_in_progress |}
      /\ pending (fst second_returned) 0 = true
      /\ movementHandler (snd second_returned) !! "Front Door" = Some false
      /\ sessions_open 1 "Front Door" (trace (snd second_returned)) = 0%nat
      /\ since (snd first_suspended) (snd second_returned)
         = [FindByName "Front Door"; SettingsShow;
            Log Debug (LText "New motion alert"); GetBusy "Front Door";
            Log Warn (LText msg_in_progress);
            SetBusy "Front Door" false; CloseSession "Front Door"])
  /\ (pending (fst third_started) 0 = true
      /\ pending (fst third_started) 2 = true
      /\ movementHandler (snd third_started) !! "Front Door" = Some true
      /\ since (snd second_returned) (snd third_started)
         = [FindByName "Front Door"; SettingsShow;
            Log Debug (LText "New motion alert"); GetBusy "Front Door";
            SetBusy "Front Door" true; Nanoid; DateNow;
            RequestSession "Front Door";
            RequestSnapshot "Front Door" "-i rtsp://front-door/live"])
  /\ (returned (fst first_completed) 0
      = Some {| error := false;
                message := "Notification send and snapshot stored." |}
      /\ movementHandler (snd first_completed) !! "Front Door" = Some false
      /\ pending (fst next_after_completion) 2 = true
      /\ since (snd first_completed) (snd next_after_completion)
         = [FindByName "Front Door"; SettingsShow;
            Log Debug (LText "New motion alert"); GetBusy "Front Door";
            SetBusy "Front Door" true; Nanoid; DateNow;
            RequestSession "Front Door";
            RequestSnapshot "Front Door" "-i rtsp://front-door/live"]).
Proof. vm_compute. repeat split. Qed.

(** *** The ways through [handle], one house each *)

Example snapshot_stored :
  fst (summary snapshot_house "Front Door")
  = Returned {| error := false; message := "Notification send and snapshot stored." |}
  /\ List.map is_await (snd (summary snapshot_house "Front Door"))
     = [true; true; true; true; true; true; true; true; false; false]
  /\ last_two snapshot_house "Front Door"
     = [SetBusy "Front Door" false; CloseSession "Front Door"].
Proof. vm_compute. repeat split. Qed.

Example video_stored :
  fst (summary video_house "Front Door")
  = Returned {| error := false; message := "Notification send and video stored." |}
  /\ last_two video_house "Front Door"
     = [SetBusy "Front Door" false; CloseSession "Front Door"].
Proof. vm_compute. repeat split. Qed.

Example no_recording :
  fst (summary no_recording_house "Front Door")
  = Returned {| error := false; message := "Notification sent." |}
  /\ last_two no_recording_house "Front Door"
     = [SetBusy "Front Door" false; CloseSession "Front Door"].
Proof. vm_compute. repeat split. Qed.

Example at_home_skip :
  summary at_home_house "Front Door"
  = (Returned {| error := true; message := msg_at_home "Front Door" |}, [])
  /\ last_two at_home_house "Front Door"
     = [SetBusy "Front Door" false; CloseSession "Front Door"].
Proof. vm_compute. repeat split. Qed.

Example max_sessions_exceeded :
  summary no_session_house "Front Door"
  = (Returned {| error := false; message := "Max sessions exceeded." |}, [])
  /\ last_two no_session_house "Front Door"
     = [SetBusy "Front Door" false; CloseSession "Front Door"].
Proof. vm_compute. repeat split. Qed.

Example label_not_detected :
  summary only_cars_house "Front Door"
  = (Returned {| error := true;
                 message := "Skip handling movement. Configured label (person) not detected." |},
     [PatchByTarget "aws" (AwsQuota 41 november_3)])
  /\ last_two only_cars_house "Front Door"
     = [SetBusy "Front Door" false; CloseSession "Front Door"].
Proof. vm_compute. repeat split. Qed.

Example snapshot_throws :
  summary camera_offline_house "Front Door"
  = (Returned {| error := true; message := "ffmpeg exited with code 1" |}, [])
  /\ last_two camera_offline_house "Front Door"
     = [SetBusy "Front Door" false; CloseSession "Front Door"].
Proof. vm_compute. repeat split. Qed.

Example person_detected :
  fst (summary rekognition_house "Front Door")
  = Returned {| error := false; message := "Notification send and snapshot stored." |}
  /\ hd_error (snd (summary rekognition_house "Front Door"))
     = Some (PatchByTarget "aws" (AwsQuota 41 november_3)).
Proof. vm_compute. repeat split. Qed.

(** *** The patch, seen from the settings store *)

Lemma settings_after_logs (db : SettingsDB) (logs : list Call) :
  forallb is_log logs = true -> fold_left settings_step logs db = db.
Proof.
  revert db.
  induction logs as [ | c logs IH]; intros db; simpl; [reflexivity |].
  intros H. apply andb_true_iff in H as [Hc Hlogs].
  destruct c; try discriminate Hc. simpl. by apply IH.
Qed.

(** Once the quota patch is the last patch made, the store of the spec
    holds the decremented quota and the date of the detection. *)
Lemma stored_quota_after_patch (db : SettingsDB) (history rest : list Call)
    (quota : Z) (date : DateTime) :
  forallb is_log rest = true ->
  let db' :=
    settings_after db (history ++ [PatchByTarget "aws" (AwsQuota quota date)] ++ rest) in
  contingent_left (aws db') = quota /\ last_rekognition (aws db') = Some date.
Proof.
  intros Hrest. unfold settings_after. rewrite !fold_left_app.
  rewrite settings_after_logs by exact Hrest. simpl. by split.
Qed.

(** Without configured labels the first debug line throws on
    [labels.toString()], before the default labels are put in place: the
    detection service is not called and [false] comes back. *)
Example labels_undefined :
  outcome_of (house_env rekognition_house)
    (handleImageDetection "Front Door" aws_on None (Some 80) (Some [xff; xd8]))
    world0
  = (Returned LFalse,
     rekognition_failed "Cannot read properties of undefined (reading 'toString')").
Proof. vm_compute. reflexivity. Qed.

End HandlerFacts.


(** ** Facts about the prebuffer service *)

Module PrebufferFacts.
Import Prebuffer.

(** *** The eviction loop *)







(** *** What one iteration does to the ring *)

(** What [store_atom] pushes: nothing for the two initialization atoms. *)
Lemma store_atom_ring (t : Tick) (a : Atom) (co : CameraOptions) :
  prebufferFmp4 (store_atom t a co)
  = prebufferFmp4 co
      ++ match ftyp co, moov co with
         | Some _, Some _ => [{| atom := a; time := now t; date := stamp t |}]
         | _, _ => []
         end.
Proof.
  unfold store_atom.
  destruct (ftyp co), (moov co); simpl; rewrite ?app_nil_r; try reflexivity.
  by destruct (String.eqb (type a) "mdat").
Qed.

Lemma store_atom_videoDuration (t : Tick) (a : Atom) (co : CameraOptions) :
  videoDuration (store_atom t a co) = videoDuration co.
Proof.
  unfold store_atom. destruct (ftyp co), (moov co); simpl; try reflexivity.
  by destruct (String.eqb (type a) "mdat").
Qed.



Lemma ingest_atom_ring (t : Tick) (a : Atom) (co : CameraOptions) :
  prebufferFmp4 (ingest_atom t a co)
  = evict (now t - videoDuration co - 100)
      (prebufferFmp4 (store_atom t a (set_time t co))).
Proof. unfold ingest_atom. simpl. by rewrite store_atom_videoDuration. Qed.





(** *** The ring after every iteration *)

Lemma clock_monotone_split (before after : list (Tick * Atom)) :
  clock_monotone (before ++ after) -> clock_monotone after.
Proof.
  induction before as [ | i before IH]; simpl; intros H; [exact H |].
  apply IH. by apply StronglySorted_inv in H as [H _].
Qed.



(** In the feed above the two fragments of second 2 are evicted when the
    atom of second 7 arrives. *)
Example feed_ring :
  List.map time (prebufferFmp4 (ingest_atoms feed garage)) = [5000; 5001; 7000].
Proof. reflexivity. Qed.

(** The clock matters: set back during ingestion, it leaves the ring out
    of order, and an entry older than the bound stays behind a newer
    one. *)
Remark stale_entry_when_clock_set_back :
  List.map time (prebufferFmp4 (ingest_atoms feed_clock_set_back garage))
  = [9000; 8500; 13000]
  /\ 8500 < 13000 - videoDuration garage - 100.
Proof. split; [reflexivity | simpl; lia]. Qed.

(** *** What a viewer is sent *)

(** The loop of the connection handler sends the window of the spec. *)
Lemma replay_after_moof (threshold : Z) (ring : list Entry) :
  replay threshold false ring
  = List.map atom (List.filter (fun e => threshold <=? time e) ring).
Proof.
  induction ring as [ | e rest IH]; simpl; [reflexivity |].
  rewrite Z.leb_antisym. destruct (time e <? threshold); simpl; [exact IH |].
  by rewrite IH.
Qed.

Lemma replay_is_window (now requested : Z) (ring : list Entry) :
  replay (now - requested) true ring = replay_window now requested ring.
Proof.
  unfold replay_window. induction ring as [ | e rest IH]; simpl; [reflexivity |].
  rewrite Z.leb_antisym. destruct (time e <? now - requested); simpl; [exact IH |].
  destruct (String.eqb (type (atom e)) "moof"); simpl; [ | exact IH].
  by rewrite replay_after_moof.
Qed.

Lemma written_app (socket : nat) (es fs : list Effect) :
  written socket (es ++ fs) = written socket es ++ written socket fs.
Proof. unfold written. apply flat_map_app. Qed.

Lemma written_writes (socket : nat) (atoms : list Atom) :
  written socket (List.map (writeAtom socket) atoms) = wire atoms.
Proof.
  unfold written, wire. induction atoms as [ | a atoms IH]; simpl; [reflexivity |].
  rewrite Nat.eqb_refl. by rewrite IH.
Qed.

Lemma written_others (socket : nat) (a : Atom) (listeners : list nat) :
  ~ In socket listeners ->
  written socket (List.map (fun s => writeAtom s a) listeners) = [].
Proof.
  unfold written. induction listeners as [ | s listeners IH]; simpl; intros Hnot.
  - reflexivity.
  - destruct (Nat.eqb_spec s socket) as [-> | Hne].
    + exfalso. apply Hnot. by left.
    + apply IH. intros Hin. apply Hnot. by right.
Qed.

(** An emitted atom reaches a socket once when the socket listens once. *)
Lemma written_emitted (socket : nat) (a : Atom) (others : list nat) :
  ~ In socket others ->
  written socket (List.map (fun s => writeAtom s a) (others ++ [socket]))
  = atom_bytes a.
Proof.
  intros Hnot. rewrite map_app, written_app, written_others by exact Hnot.
  simpl. rewrite Nat.eqb_refl. by rewrite app_nil_r.
Qed.

Lemma store_atom_events (t : Tick) (a : Atom) (co : CameraOptions) :
  events (store_atom t a co) = events co.
Proof.
  unfold store_atom. destruct (ftyp co), (moov co); simpl; try reflexivity.
  by destruct (String.eqb (type a) "mdat").
Qed.

Lemma ingest_atom_events (t : Tick) (a : Atom) (co : CameraOptions) :
  events (ingest_atom t a co) = events co.
Proof. unfold ingest_atom. simpl. by rewrite store_atom_events. Qed.

Lemma ingest_found (cameraName : string) (w : World) (co : CameraOptions)
    (t : Tick) (a : Atom) :
  prebuffer w !! cameraName = Some co ->
  ingest cameraName w (t, a)
  = emit_all (List.map (fun socket => writeAtom socket a) (events co))
      (put cameraName (ingest_atom t a co) w).
Proof.
  intros Hco. unfold ingest. rewrite Hco. cbn [fst snd].
  by rewrite ingest_atom_events.
Qed.

(** Live atoms reach a socket that listens once, in order. *)
Lemma ingest_all_written (cameraName : string) (socket : nat) (others : list nat)
    (live : list (Tick * Atom)) (w : World) (co : CameraOptions) :
  prebuffer w !! cameraName = Some co ->
  events co = others ++ [socket] ->
  ~ In socket others ->
  written socket (effects (ingest_all cameraName live w))
  = written socket (effects w) ++ wire (List.map snd live).
Proof.
  revert w co. induction live as [ | [t a] live IH]; intros w co Hco Hev Hnot.
  - simpl. by rewrite app_nil_r.
  - change (ingest_all cameraName ((t, a) :: live) w)
      with (ingest_all cameraName live (ingest cameraName w (t, a))).
    rewrite (ingest_found cameraName w co t a Hco).
    rewrite (IH _ (ingest_atom t a co)).
    + simpl. rewrite written_app, Hev.
      rewrite written_emitted by exact Hnot.
      unfold wire. simpl. by rewrite app_assoc.
    + simpl. apply lookup_insert_eq.
    + by rewrite ingest_atom_events.
    + exact Hnot.
Qed.

(** [ftyp] and [moov], once set, are never set again. *)
Lemma ingest_atom_keeps_init (t : Tick) (a : Atom) (co : CameraOptions) :
  (forall f, ftyp co = Some f -> ftyp (ingest_atom t a co) = Some f)
  /\ (forall m, moov co = Some m -> moov (ingest_atom t a co) = Some m).
Proof.
  unfold ingest_atom, store_atom. simpl.
  destruct (ftyp co) as [f0 | ] eqn:Hf, (moov co) as [m0 | ] eqn:Hm; simpl;
    try (destruct (String.eqb (type a) "mdat"); simpl);
    rewrite ?Hf, ?Hm; split; intros x Hx; congruence.
Qed.

Lemma ingest_atoms_keep_init (inputs : list (Tick * Atom)) (co : CameraOptions) :
  (forall f, ftyp co = Some f -> ftyp (ingest_atoms inputs co) = Some f)
  /\ (forall m, moov co = Some m -> moov (ingest_atoms inputs co) = Some m).
Proof.
  revert co. induction inputs as [ | [t a] rest IH]; intros co; simpl.
  - split; auto.
  - destruct (ingest_atom_keeps_init t a co) as [Hf Hm].
    destruct (IH (ingest_atom t a co)) as [IHf IHm]. split; auto.
Qed.

(** Nothing is pushed on the ring before [ftyp] and [moov] are set. *)
Lemma ingest_atom_ring_needs_init (t : Tick) (a : Atom) (co : CameraOptions) :
  (prebufferFmp4 co <> [] -> is_Some (ftyp co) /\ is_Some (moov co)) ->
  prebufferFmp4 (ingest_atom t a co) <> [] ->
  is_Some (ftyp (ingest_atom t a co)) /\ is_Some (moov (ingest_atom t a co)).
Proof.
  intros Hinv Hring.
  assert (prebufferFmp4 (store_atom t a (set_time t co)) <> []) as Hstored.
  { intros Hnil. apply Hring. rewrite ingest_atom_ring, Hnil. reflexivity. }
  rewrite store_atom_ring in Hstored. simpl in Hstored.
  unfold ingest_atom, store_atom. simpl.
  destruct (ftyp co) as [f0 | ] eqn:Hf, (moov co) as [m0 | ] eqn:Hm; simpl;
    try (destruct (String.eqb (type a) "mdat"); simpl); rewrite ?Hf, ?Hm;
    try (split; eauto; fail);
    rewrite app_nil_r in Hstored; destruct (Hinv Hstored) as [[? ?] [? ?]];
    congruence.
Qed.

Lemma ring_needs_init (config : Config) (camera : CameraConfig) (t0 : Tick)
    (history : list (Tick * Atom)) :
  let co := ingest_atoms history (initial config camera t0) in
  prebufferFmp4 co <> [] -> is_Some (ftyp co) /\ is_Some (moov co).
Proof.
  assert (forall inputs co,
             (prebufferFmp4 co <> [] -> is_Some (ftyp co) /\ is_Some (moov co)) ->
             prebufferFmp4 (ingest_atoms inputs co) <> [] ->
             is_Some (ftyp (ingest_atoms inputs co))
             /\ is_Some (moov (ingest_atoms inputs co))) as Hgen.
  { induction inputs as [ | [t a] rest IH]; intros co Hinv; simpl; [exact Hinv |].
    apply IH. by apply ingest_atom_ring_needs_init. }
  apply Hgen. simpl. done.
Qed.

Lemma wire_app (atoms more : list Atom) :
  wire (atoms ++ more) = wire atoms ++ wire more.
Proof. unfold wire. apply flat_map_app. Qed.

(** C4. A viewer connects on a fresh socket to a camera with state [co]
    at time [now], asking for [requestedPrebuffer] milliseconds, and
    [live] is ingested afterwards.  The bytes written to the socket are,
    in this order: [ftyp] if set, [moov] if set, the ring entries with
    [time >= now - requestedPrebuffer] from the first ['moof'] among them
    on, then every atom ingested afterwards.  [ftyp] and [moov], once set,
    are kept through all later ingestion; and from [start] on, the ring is
    empty as long as [ftyp] and [moov] are not both set, so no ring atom
    can precede them. *)
Theorem viewer_stream (cameraName : string) (requestedPrebuffer now : Z)
    (server socket : nat) (w : World) (co : CameraOptions)
    (live : list (Tick * Atom)) :
  prebuffer w !! cameraName = Some co ->
  ~ In socket (events co) ->
  written socket
    (effects (ingest_all cameraName live
                (getVideo_connection cameraName requestedPrebuffer server socket
                   now w)))
  = written socket (effects w)
      ++ wire (option_list (ftyp co) ++ option_list (moov co)
                 ++ replay_window now requestedPrebuffer (prebufferFmp4 co)
                 ++ List.map snd live)
  /\ (forall f, ftyp co = Some f -> ftyp (ingest_atoms live co) = Some f)
  /\ (forall m, moov co = Some m -> moov (ingest_atoms live co) = Some m)
  /\ (forall config camera t0 history,
        let c := ingest_atoms history (initial config camera t0) in
        prebufferFmp4 c <> [] -> is_Some (ftyp c) /\ is_Some (moov c)).
Proof.
  intros Hco Hfresh. split; [ | split; [ | split]].
  - unfold getVideo_connection. cbn [emit prebuffer]. rewrite Hco.
    rewrite (ingest_all_written cameraName socket (events co) live _
               (set_listeners (events co ++ [socket]) (killed co ++ [socket]) co)).
    + cbn [put emit_all emit effects].
      rewrite !written_app, written_writes, replay_is_window. simpl.
      rewrite !wire_app, <- !app_assoc. reflexivity.
    + cbn [put prebuffer]. apply lookup_insert_eq.
    + reflexivity.
    + exact Hfresh.
  - apply ingest_atoms_keep_init.
  - apply ingest_atoms_keep_init.
  - intros config camera t0 history. apply ring_needs_init.
Qed.

Lemma viewer_stream_witness :
  written 7 (effects garage_viewed)
  = written 7 (effects garage_fed)
      ++ wire (option_list (ftyp garage_state) ++ option_list (moov garage_state)
                 ++ replay_window 7000 1999 (prebufferFmp4 garage_state)
                 ++ List.map snd live_feed)
  /\ (forall f, ftyp garage_state = Some f ->
                ftyp (ingest_atoms live_feed garage_state) = Some f)
  /\ (forall m, moov garage_state = Some m ->
                moov (ingest_atoms live_feed garage_state) = Some m)
  /\ (forall config camera t0 history,
        let c := ingest_atoms history (initial config camera t0) in
        prebufferFmp4 c <> [] -> is_Some (ftyp c) /\ is_Some (moov c)).
Proof.
  apply (viewer_stream "Garage" 1999 7000 2 7 garage_fed garage_state live_feed).
  - vm_compute. reflexivity.
  - vm_compute. tauto.
Defined.

(** The viewer of the scenario: the window holds the [mdat] of 5001 and
    the [moof] of 7000; the [mdat] is skipped, and the stream is [ftyp],
    [moov], that [moof], then the two live atoms. *)
Example garage_viewer_bytes :
  written 7 (effects garage_viewed)
  = wire [box "ftyp" [x01]; box "moov" [x02]; box "moof" [x07];
          box "mdat" [x08]; box "moof" [x09]].
Proof. vm_compute. reflexivity. Qed.

(** *** [stop] *)

Lemma startPreBufferSessions_prebuffer (ports : nat -> Z) (cameraName : string)
    (w : World) :
  prebuffer (snd (startPreBufferSessions ports cameraName w)) = prebuffer w.
Proof.
  unfold startPreBufferSessions.
  destruct (prebuffer w !! cameraName) as [co | ]; [ | reflexivity].
  destruct (prebufferSession co); reflexivity.
Qed.

Lemma start_camera_no_handle_keys (ports : nat -> Z) (config : Config) (t : Tick)
    (w : World) (camera : CameraConfig) :
  no_handle_keys w -> no_handle_keys (start_camera ports config t w camera).
Proof.
  intros Hw. unfold start_camera.
  pose proof (startPreBufferSessions_prebuffer ports (name camera)
                (put (name camera) (initial config camera t) w)) as Hsame.
  destruct (startPreBufferSessions ports (name camera)
              (put (name camera) (initial config camera t) w)) as [session w1].
  simpl in Hsame. rewrite Hsame. simpl. rewrite lookup_insert_eq.
  intros n co. simpl. rewrite Hsame. simpl.
  destruct (decide (name camera = n)) as [<- | Hne].
  - rewrite lookup_insert_eq. intros [= <-]. by split.
  - rewrite !lookup_insert_ne by exact Hne. apply Hw.
Qed.

(** After [start], no camera state has a [process] or a [server] key: the
    handles are kept under [prebufferSession]. *)
Lemma start_no_handle_keys (ports : nat -> Z) (config : Config) (t : Tick) :
  no_handle_keys (start ports config t empty_world).
Proof.
  unfold start.
  assert (forall cams w, no_handle_keys w ->
            no_handle_keys (fold_left (start_camera ports config t) cams w)) as Hfold.
  { induction cams as [ | camera cams IH]; intros w Hw; simpl; [exact Hw |].
    apply IH. by apply start_camera_no_handle_keys. }
  apply Hfold. intros n co. simpl. by rewrite lookup_empty.
Qed.

(** So [stop] finds nothing to kill and nothing to close. *)
Lemma stop_only_logs (cameraName : string) (w : World) (co : CameraOptions) :
  no_handle_keys w ->
  prebuffer w !! cameraName = Some co ->
  stop cameraName w = emit (LogDebug "Stopping prebuffering..") w.
Proof.
  intros Hw Hco. unfold stop. rewrite Hco.
  destruct (Hw cameraName co Hco) as [-> ->]. reflexivity.
Qed.

(** C9. The code does not stop what [startPreBufferSessions] started.
    After [start] the garage camera has its listener (handle 0) and its
    encoder process (handle 1) under [prebufferSession], and the process
    has been spawned; [stop] only logs: it kills no process and closes no
    server.  (It does not fail either, also for a camera without state,
    and can be repeated.) *)
Theorem stop_leaves_encoder_running :
  (prebufferSession <$> prebuffer garage_started !! "Garage")
  = Some (Some {| server := 0; process := 1 |})
  /\ In (Spawn 1 "ffmpeg"
           (["-i"; "rtsp://garage/live"] ++ ffmpegOutput "tcp://127.0.0.1:50000")
           "ignore")
        (effects garage_started)
  /\ effects garage_stopped
     = effects garage_started ++ [LogDebug "Stopping prebuffering.."]
  /\ effects (stop "Garage" garage_stopped)
     = effects garage_started
         ++ [LogDebug "Stopping prebuffering.."; LogDebug "Stopping prebuffering.."]
  /\ stop "Attic" garage_started = garage_started.
Proof.
  split; [vm_compute; reflexivity |].
  split; [vm_compute; tauto |].
  split; [vm_compute; reflexivity |].
  split; [vm_compute; reflexivity |].
  reflexivity.
Qed.

End PrebufferFacts.

(** ** More facts about the motion handler: what holds of every run *)

Module HandlerRuns.
Import Handler HandlerFacts.
Local Open Scope prog_scope.

(** *** The calls of a run *)

Lemma run_calls {R : Type} (env : Env) (p : Prog R) (w : World) :
  trace (snd (run env p w)) = trace w ++ calls_of env p w.
Proof.
  destruct (run_trace env p w) as [calls Hcalls].
  unfold calls_of. rewrite (since_app w _ calls Hcalls). exact Hcalls.
Qed.

Lemma calls_of_Ret {R : Type} (env : Env) (r : R) (w : World) :
  calls_of env (Ret r) w = [].
Proof. unfold calls_of, since. cbn [run snd]. apply drop_all. Qed.

Lemma calls_of_Throw {R : Type} (env : Env) (e : Error) (w : World) :
  calls_of env (@Throw R e) w = [].
Proof. unfold calls_of, since. cbn [run snd]. apply drop_all. Qed.

Lemma calls_of_Vis {R : Type} (env : Env) (c : Call)
    (k : Outcome (ret c) -> Prog R) (w : World) :
  calls_of env (Vis c k) w
  = c :: calls_of env (k (fst (perform env c w))) (snd (perform env c w)).
Proof.
  unfold calls_of at 1. simpl.
  pose proof (perform_trace env c w) as Hc.
  destruct (perform env c w) as [o w1]. simpl in *.
  apply since_app. rewrite run_calls, Hc, <- app_assoc. reflexivity.
Qed.



(** *** Confinement *)

Lemma confined_bind {A B : Type} (P : Call -> Prop) (p : Prog A) (f : A -> Prog B) :
  confined P p -> (forall a, confined P (f a)) -> confined P (bind p f).
Proof.
  intros Hp Hf. induction Hp as [a | e | c k Hc Hk IH]; simpl.
  - apply Hf.
  - constructor.
  - constructor; [exact Hc | exact IH].
Qed.

Lemma confined_try_catch {A : Type} (P : Call -> Prop) (p : Prog A)
    (h : Error -> Prog A) :
  confined P p -> (forall e, confined P (h e)) -> confined P (try_catch p h).
Proof.
  intros Hp Hh. induction Hp as [a | e | c k Hc Hk IH]; simpl.
  - constructor.
  - apply Hh.
  - constructor; [exact Hc | exact IH].
Qed.

Lemma confined_call (P : Call -> Prop) (c : Call) : P c -> confined P (call c).
Proof. intros Hc. constructor; [exact Hc |]. intros [a | e]; constructor. Qed.

Lemma confined_mono {R : Type} (P P' : Call -> Prop) (p : Prog R) :
  (forall c, P c -> P' c) -> confined P p -> confined P' p.
Proof.
  intros Himp Hp. induction Hp as [a | e | c k Hc Hk IH]; constructor; auto.
Qed.

(** Confinement is about every run. *)
Lemma confined_calls {R : Type} (P : Call -> Prop) (env : Env) (p : Prog R)
    (w : World) :
  confined P p -> Forall P (calls_of env p w).
Proof.
  intros Hp. revert w. induction Hp as [a | e | c k Hc Hk IH]; intros w.
  - rewrite calls_of_Ret. constructor.
  - rewrite calls_of_Throw. constructor.
  - rewrite calls_of_Vis. constructor; [exact Hc | apply IH].
Qed.

(** *** Monitors *)

Lemma safe_bind {St A B : Type} (d : St -> Call -> option St) (p : Prog A)
    (f : A -> Prog B) (Q : B -> St -> Prop) (E : Error -> St -> Prop) (s : St) :
  safe d s p (fun a s' => safe d s' (f a) Q E) E -> safe d s (bind p f) Q E.
Proof.
  revert s. induction p as [a | e | c k IH]; intros s; simpl; auto.
  intros (s' & Hd & Hk). exists s'. split; [exact Hd |]. intros o. apply IH, Hk.
Qed.

Lemma safe_try_catch {St A : Type} (d : St -> Call -> option St) (p : Prog A)
    (h : Error -> Prog A) (Q : A -> St -> Prop) (E : Error -> St -> Prop) (s : St) :
  safe d s p Q (fun e s' => safe d s' (h e) Q E) -> safe d s (try_catch p h) Q E.
Proof.
  revert s. induction p as [a | e | c k IH]; intros s; simpl; auto.
  intros (s' & Hd & Hk). exists s'. split; [exact Hd |]. intros o. apply IH, Hk.
Qed.

Lemma safe_mono {St R : Type} (d : St -> Call -> option St) (p : Prog R)
    (Q Q' : R -> St -> Prop) (E E' : Error -> St -> Prop) (s : St) :
  (forall r s', Q r s' -> Q' r s') -> (forall e s', E e s' -> E' e s') ->
  safe d s p Q E -> safe d s p Q' E'.
Proof.
  intros HQ HE. revert s. induction p as [a | e | c k IH]; intros s; simpl; auto.
  intros (s' & Hd & Hk). exists s'. split; [exact Hd |]. intros o. apply IH, Hk.
Qed.

Lemma safe_call {St : Type} (d : St -> Call -> option St) (c : Call)
    (Q : ret c -> St -> Prop) (E : Error -> St -> Prop) (s s' : St) :
  d s c = Some s' -> (forall a, Q a s') -> (forall e, E e s') ->
  safe d s (call c) Q E.
Proof.
  intros Hd HQ HE. exists s'. split; [exact Hd |]. intros [a | e]; simpl; auto.
Qed.

(** A program whose calls all leave the monitor where it is. *)
Lemma safe_confined {St R : Type} (d : St -> Call -> option St) (p : Prog R)
    (Q : R -> St -> Prop) (E : Error -> St -> Prop) (s : St) :
  confined (fun c => d s c = Some s) p ->
  (forall r, Q r s) -> (forall e, E e s) -> safe d s p Q E.
Proof.
  intros Hp HQ HE. induction Hp as [a | e | c k Hc Hk IH]; simpl; auto.
  exists s. split; [exact Hc | exact IH].
Qed.

(** A safe program never violates the monitor, on any run. *)
Lemma safe_calls {St R : Type} (d : St -> Call -> option St) (env : Env)
    (p : Prog R) (Q : R -> St -> Prop) (E : Error -> St -> Prop) (s : St)
    (w : World) :
  safe d s p Q E ->
  exists s',
    monitor d s (calls_of env p w) = Some s'
    /\ match fst (run env p w) with
       | Returned r => Q r s'
       | Raised e => E e s'
       end.
Proof.
  revert s w. induction p as [a | e | c k IH]; intros s w Hsafe.
  - exists s. rewrite calls_of_Ret. by split.
  - exists s. rewrite calls_of_Throw. by split.
  - destruct Hsafe as (s1 & Hd & Hk). rewrite calls_of_Vis. simpl. rewrite Hd.
    destruct (perform env c w) as [o w1]. simpl. apply IH, Hk.
Qed.

(** *** Walking through the handler *)

Ltac unfold_handler :=
  progress unfold handle, handle_try, handle_catch, handle_finish, handle_camera,
    awsSettings_of, getMotionInfo, handleSnapshot, handleNotification,
    handleRecording, handleAWS, handleImageDetection, labels_toString,
    sendWebhook, stringIsAValidUrl, sendTelegram, sendWebpush, log.

(** Prove [confined P p] for a part of the handler; [leaf] proves [P c]. *)
Ltac confine_with leaf :=
  repeat first
    [ apply confined_Ret
    | apply confined_Throw
    | apply confined_bind; [ | intro ]
    | apply confined_try_catch; [ | intro ]
    | match goal with
      | |- confined _ (call _) =>
          unfold call; apply confined_Vis;
          [solve [leaf]
          | intros [? | ?]; [apply confined_Ret | apply confined_Throw]]
      end
    | match goal with
      | |- confined _ (if ?b then _ else _) => destruct b eqn:?
      | |- confined _ (match ?x with _ => _ end) => destruct x eqn:?
      end
    | progress cbv zeta
    | unfold_handler ].

Ltac by_computation :=
  cbn; rewrite ?String.eqb_refl; reflexivity.

(** X1. Whatever the collaborators answer, every call that [handle] makes
    about a camera (lookup, busy flag, session, snapshot) names the camera
    it was called for: a handling never reads or writes the busy flag of
    another camera and never requests or closes another camera's
    session. *)
Theorem handle_touches_own_camera_only (env : Env) (trigger cameraName : string)
    (active : bool) (w : World) :
  Forall (fun c => own_camera cameraName c = true)
    (calls_of env (handle trigger cameraName active) w).
Proof.
  apply confined_calls. confine_with by_computation.
Qed.

Ltac quota_leaf :=
  cbn;
  repeat match goal with
         | H : _ && _ = true |- _ => apply andb_true_iff in H as [? ?]
         end;
  repeat match goal with
         | H : ?x = true |- context [?x] => rewrite H
         end;
  first
    [ reflexivity
    | apply Z.leb_le;
      repeat match goal with
             | H : (0 <? _) = true |- _ => apply Z.ltb_lt in H
             end;
      lia ].

(** X2. Whatever the collaborators answer, [handle] calls the detection
    service only with settings in which recognition is active, the total
    quota and the quota left are positive and the three credentials are
    set; and the quota it writes back after a detection is never
    negative. *)
Theorem handle_respects_quota (env : Env) (trigger cameraName : string)
    (active : bool) (w : World) :
  Forall (fun c => quota_respected c = true)
    (calls_of env (handle trigger cameraName active) w).
Proof.
  apply confined_calls. confine_with quota_leaf.
Qed.




(** *** At most once *)

Lemma at_most_le {R : Type} (kind : Call -> bool) (n m : nat) (p : Prog R) :
  at_most kind n p -> (n <= m)%nat -> at_most kind m p.
Proof.
  intros Hp. revert m. induction Hp as [n r | n e | n c k Hc Hk IH | n c k Hk IH];
    intros m Hle.
  - constructor.
  - constructor.
  - apply at_most_pass; auto.
  - destruct m as [ | m]; [lia |]. apply at_most_count. intros o. apply IH. lia.
Qed.

Lemma at_most_bind {A B : Type} (kind : Call -> bool) (a n : nat) (p : Prog A)
    (f : A -> Prog B) :
  (a <= n)%nat -> at_most kind a p -> (forall x, at_most kind (n - a) (f x)) ->
  at_most kind n (bind p f).
Proof.
  intros Hle Hp Hf. revert n Hf Hle.
  induction Hp as [a r | a e | a c k Hc Hk IH | a c k Hk IH]; intros n Hf Hle; simpl.
  - apply (at_most_le kind (n - a) n); [apply Hf | lia].
  - constructor.
  - apply at_most_pass; [exact Hc |]. intros o. by apply IH.
  - destruct n as [ | n]; [lia |]. apply at_most_count. intros o.
    apply IH; [exact Hf | lia].
Qed.

Lemma at_most_try_catch {A : Type} (kind : Call -> bool) (a n : nat) (p : Prog A)
    (h : Error -> Prog A) :
  (a <= n)%nat -> at_most kind a p -> (forall e, at_most kind (n - a) (h e)) ->
  at_most kind n (try_catch p h).
Proof.
  intros Hle Hp Hh. revert n Hh Hle.
  induction Hp as [a r | a e | a c k Hc Hk IH | a c k Hk IH]; intros n Hh Hle; simpl.
  - constructor.
  - apply (at_most_le kind (n - a) n); [apply Hh | lia].
  - apply at_most_pass; [exact Hc |]. intros o. by apply IH.
  - destruct n as [ | n]; [lia |]. apply at_most_count. intros o.
    apply IH; [exact Hh | lia].
Qed.

(** The bound holds of every run. *)
Lemma at_most_calls {R : Type} (kind : Call -> bool) (n : nat) (env : Env)
    (p : Prog R) (w : World) :
  at_most kind n p ->
  (length (List.filter kind (calls_of env p w)) <= n)%nat.
Proof.
  intros Hp. revert w.
  induction Hp as [n r | n e | n c k Hc Hk IH | n c k Hk IH]; intros w.
  - rewrite calls_of_Ret. simpl. lia.
  - rewrite calls_of_Throw. simpl. lia.
  - rewrite calls_of_Vis. simpl. rewrite Hc. apply IH.
  - rewrite calls_of_Vis. simpl.
    specialize (IH (fst (perform env c w)) (snd (perform env c w))).
    destruct (kind c); simpl; lia.
Qed.

Ltac head_of t :=
  lazymatch t with
  | ?f _ => head_of f
  | _ => t
  end.

(** Prove [at_most kind n p] along the handler, [n] a numeral: at a
    sequence, give the first part the least number that works; [special]
    is tried first on every part. *)
Ltac count_with special :=
  first
    [ special
    | lazymatch goal with
      | |- at_most _ _ (Ret _) => apply at_most_Ret
      | |- at_most _ _ (Throw _) => apply at_most_Throw
      | |- at_most _ _ (call _) =>
          unfold call;
          first
            [ apply at_most_pass;
              [by_computation
              | intros [? | ?]; [apply at_most_Ret | apply at_most_Throw]]
            | apply at_most_count;
              intros [? | ?]; [apply at_most_Ret | apply at_most_Throw] ]
      | |- at_most _ _ (bind _ _) =>
          first
            [ apply (at_most_bind _ 0%nat);
              [cbn; lia | solve [count_with special] | intro]
            | apply (at_most_bind _ 1%nat);
              [cbn; lia | solve [count_with special] | intro]
            | apply (at_most_bind _ 2%nat);
              [cbn; lia | solve [count_with special] | intro] ];
          cbn [Nat.sub]; count_with special
      | |- at_most _ _ (try_catch _ _) =>
          first
            [ apply (at_most_try_catch _ 0%nat);
              [cbn; lia | solve [count_with special] | intro]
            | apply (at_most_try_catch _ 1%nat);
              [cbn; lia | solve [count_with special] | intro]
            | apply (at_most_try_catch _ 2%nat);
              [cbn; lia | solve [count_with special] | intro] ];
          cbn [Nat.sub]; count_with special
      | |- at_most _ _ (if ?b then _ else _) =>
          destruct b eqn:?; count_with special
      | |- at_most _ _ (match ?x with _ => _ end) =>
          destruct x eqn:?; count_with special
      | |- at_most _ _ ?p =>
          first [progress cbv zeta | let h := head_of p in unfold h];
          count_with special
      end ].

Ltac count_calls := count_with ltac:(fail).



(** *** The lock comes first *)

Lemma lock_first_locked (cameraName : string) (c : Call) :
  lock_first cameraName true c = Some true.
Proof. destruct c; try reflexivity. by destruct b. Qed.

(** Once the monitor is in a state that every call leaves alone, any
    program is safe. *)
Lemma safe_absorbing {St R : Type} (d : St -> Call -> option St) (p : Prog R)
    (Q : R -> St -> Prop) (E : Error -> St -> Prop) (s : St) :
  (forall c, d s c = Some s) ->
  (forall r, Q r s) -> (forall e, E e s) -> safe d s p Q E.
Proof.
  intros Hd HQ HE. induction p as [a | e | c k IH]; simpl; auto.
  exists s. split; [apply Hd | exact IH].
Qed.

Lemma lock_first_needs (cameraName : string) (b b1 : bool) (c : Call) :
  lock_first cameraName b c = Some b1 -> needs_lock c = true -> b = true.
Proof.
  intros Hstep Hc.
  destruct c; try discriminate Hc; simpl in Hstep;
    destruct b; try discriminate Hstep; reflexivity.
Qed.

Lemma lock_first_sets (cameraName : string) (b : bool) (c : Call) :
  lock_first cameraName b c = Some true ->
  b = true \/ c = SetBusy cameraName true.
Proof.
  intros Hstep.
  destruct b; [by left |]. right.
  destruct c; simpl in Hstep; try discriminate Hstep.
  destruct b; simpl in Hstep; [ | discriminate Hstep].
  injection Hstep as Heq. by apply String.eqb_eq in Heq as ->.
Qed.

Lemma monitor_lock_first (cameraName : string) (calls : list Call) (b b' : bool) :
  monitor (lock_first cameraName) b calls = Some b' ->
  forall pre c post,
    calls = pre ++ c :: post -> needs_lock c = true ->
    b = true \/ In (SetBusy cameraName true) pre.
Proof.
  revert b. induction calls as [ | c0 calls IH]; intros b Hmon pre c post Heq Hc.
  - by destruct pre.
  - simpl in Hmon.
    destruct (lock_first cameraName b c0) as [b1 | ] eqn:Hstep; [ | discriminate].
    destruct pre as [ | c1 pre]; simpl in Heq; injection Heq as Hhead Htail.
    + subst c0. left. by apply (lock_first_needs cameraName b b1 c).
    + subst c0. destruct (IH b1 Hmon pre c post Htail Hc) as [-> | Hin].
      * destruct (lock_first_sets cameraName b c1 Hstep) as [-> | ->].
        -- by left.
        -- right. by left.
      * right. by right.
Qed.

(** Prove [safe d s p Q E] along the handler.  A helper whose calls all
    leave the monitor where it is is passed in one step. *)
Ltac walk :=
  repeat first
    [ exact I
    | progress cbn beta
    | progress cbv zeta
    | apply safe_absorbing;
      [solve [intro; apply lock_first_locked] | intros ? | intros ?]
    | lazymatch goal with
      | |- safe _ _ (Ret _) _ _ => cbn [safe]
      | |- safe _ _ (Throw _) _ _ => cbn [safe]
      | |- safe _ _ (call _) _ _ =>
          first
            [ apply safe_confined;
              [solve [confine_with by_computation] | intros ? | intros ?]
            | match goal with
              | |- @safe ?St ?T ?d ?s (call ?c) ?Q ?E =>
                  change (@safe St (ret c) d s (call c) Q E);
                  eapply safe_call; [by_computation | intros ? | intros ?]
              end ]
      | |- safe _ _ (bind _ _) _ _ => apply safe_bind
      | |- safe _ _ (try_catch _ _) _ _ => apply safe_try_catch
      | |- safe _ _ (if ?b then _ else _) _ _ => destruct b eqn:?
      | |- safe _ _ (match ?x with _ => _ end) _ _ => destruct x eqn:?
      | |- @safe _ Result _ _ ?p _ _ => let h := head_of p in unfold h
      | |- safe _ _ ?p _ _ =>
          first
            [ apply safe_confined;
              [solve [confine_with by_computation] | intros ? | intros ?]
            | let h := head_of p in unfold h ]
      end ].

Lemma handle_locks_first (trigger cameraName : string) (active : bool) :
  safe (lock_first cameraName) false (handle trigger cameraName active)
    (fun _ _ => True) (fun _ _ => True).
Proof. walk. Qed.

(** X5. Whatever the collaborators answer, everything [handle] does on
    behalf of a motion event (the event id, the session request, the
    snapshot, the detection, the notification record, the recording, the
    deliveries, the settings patch) comes after it has set the busy flag
    of its camera: nothing of this happens on the paths that do not take
    the lock. *)
Theorem handle_locks_before_acting (env : Env) (trigger cameraName : string)
    (active : bool) (w : World) (pre post : list Call) (c : Call) :
  calls_of env (handle trigger cameraName active) w = pre ++ c :: post ->
  needs_lock c = true ->
  In (SetBusy cameraName true) pre.
Proof.
  intros Hcalls Hc.
  destruct (safe_calls (lock_first cameraName) env
              (handle trigger cameraName active) _ _ false w
              (handle_locks_first trigger cameraName active))
    as (b' & Hmon & _).
  destruct (monitor_lock_first cameraName _ false b' Hmon pre c post Hcalls Hc)
    as [Hfalse | Hin]; [discriminate | exact Hin].
Qed.

Lemma handle_locks_before_acting_witness :
  In (SetBusy "Front Door" true) (take 8 snapshot_calls).
Proof.
  apply (handle_locks_before_acting (house_env snapshot_house) "motion"
           "Front Door" true world0 (take 8 snapshot_calls)
           (drop 9 snapshot_calls)
           (RequestSnapshot "Front Door" "-i rtsp://front-door/live")).
  - vm_compute. reflexivity.
  - reflexivity.
Defined.

(** *** What a success means *)




(** *** The paths that stop early *)

(** X7. When the at-home rule skips the camera, [handle] returns
    [error: true] with the at-home message without reading the busy flag;
    its calls are the lookup, the settings, the clock if a last
    recognition date is stored, the debug line and the cleanup: also a
    skipped trigger resets the busy flag and closes a session. *)
Theorem at_home_trigger_is_skipped (env : Env) (trigger cameraName : string)
    (active : bool) (w : World) (cam : Camera) (db : SettingsDB) :
  respond env (trace w) (FindByName cameraName) = Returned (Some cam) ->
  respond env (trace w ++ [FindByName cameraName]) SettingsShow = Returned db ->
  skipped db cameraName ->
  exists w',
    run env (handle trigger cameraName active) w
    = (Returned {| error := true; message := msg_at_home cameraName |}, w')
    /\ since w w'
       = [FindByName cameraName; SettingsShow] ++ clock_read (aws db)
           ++ [Log Debug (LText (msg_at_home cameraName));
               SetBusy cameraName false; CloseSession cameraName].
Proof.
  intros Hfind Hshow [Hhome Hexcl].
  unfold handle, handle_try.
  rewrite run_bind, run_try_catch, run_bind, run_try_catch. run_the_call.
  rewrite Hfind. tidy. unfold handle_camera.
  run_call_step. rewrite Hshow. tidy.
  rewrite run_bind, run_awsSettings_of. tidy. flat.
  rewrite Hhome, Hexcl. cbn [negb orb andb]. tidy.
  unfold log. run_call_step. rewrite run_handle_finish. tidy.
  eexists. split; [reflexivity |].
  apply since_app. tidy. flat. reflexivity.
Qed.

Lemma at_home_trigger_is_skipped_witness :
  exists w',
    run (house_env at_home_house) (handle "motion" "Front Door" true) world0
    = (Returned {| error := true; message := msg_at_home "Front Door" |}, w')
    /\ since world0 w'
       = [FindByName "Front Door"; SettingsShow] ++ clock_read aws_off
           ++ [Log Debug (LText (msg_at_home "Front Door"));
               SetBusy "Front Door" false; CloseSession "Front Door"].
Proof.
  apply (at_home_trigger_is_skipped (house_env at_home_house) "motion"
           "Front Door" true world0 front_door
           (settings_with true aws_off true "Snapshot")).
  - reflexivity.
  - reflexivity.
  - split; reflexivity.
Defined.



(** *** The delivery channels *)












(** X11. A webhook address that [new URL] rejects is dropped silently:
    with the webhook active and an address set, [sendWebhook] only tries
    to parse the address; it posts nothing and logs nothing, neither an
    error nor the "Skip" line, and returns normally. *)
Theorem unparsable_webhook_is_dropped (env : Env) (w : World) (cameraName : string)
    (n : Notification) (webhookSettings : WebhookSettings) (e : Error) :
  wh_active webhookSettings = true ->
  Js.truthy (wh_endpoint webhookSettings) = true ->
  respond env (trace w) (NewURL (wh_endpoint webhookSettings)) = Raised e ->
  run env (sendWebhook cameraName n webhookSettings) w
  = (Returned tt,
     {| movementHandler := movementHandler w;
        trace := trace w ++ [NewURL (wh_endpoint webhookSettings)] |}).
Proof.
  intros Hactive Hset Hurl. unfold sendWebhook.
  rewrite run_try_catch, Hactive, Hset. tidy.
  rewrite run_bind. unfold stringIsAValidUrl.
  rewrite run_try_catch. run_call_step. rewrite Hurl. tidy. reflexivity.
Qed.

Lemma unparsable_webhook_is_dropped_witness :
  run (cut_off_env snapshot_house)
    (sendWebhook "Front Door" a_notification
       {| wh_active := true; wh_endpoint := "hooks.local/motion" |}) world0
  = (Returned tt,
     {| movementHandler := movementHandler world0;
        trace := trace world0 ++ [NewURL "hooks.local/motion"] |}).
Proof.
  apply (unparsable_webhook_is_dropped (cut_off_env snapshot_house) world0
           "Front Door" a_notification
           {| wh_active := true; wh_endpoint := "hooks.local/motion" |}
           "Invalid URL").
  - reflexivity.
  - reflexivity.
  - reflexivity.
Defined.



(** The two calls of [sendTelegram] on the recording path exclude each
    other: the first sends in the modes "Text" and "Snapshot", the second
    in the mode "Video". *)
Lemma one_send_of_two (cameraName : string) (n : Notification)
    (rs : RecordingSettings) (ts : TelegramSettings)
    (img1 img2 : option (list byte)) (mid : Prog unit) (rest : Prog Result) :
  at_most is_telegram_send 0 mid ->
  at_most is_telegram_send 0 rest ->
  at_most is_telegram_send 1
    (sendTelegram cameraName n rs ts img1 true false;;
     mid;;
     sendTelegram cameraName n rs ts img2 false true;;
     rest).
Proof.
  intros Hmid Hrest.
  destruct (String.eqb (tg_type ts) "Video") eqn:Hvideo.
  - apply String.eqb_eq in Hvideo.
    apply (at_most_bind _ 0%nat); [lia | | intros _].
    { unfold sendTelegram. rewrite Hvideo.
      change (String.eqb "Video" "Text") with false.
      change (String.eqb "Video" "Snapshot") with false.
      rewrite !andb_false_r. cbn [andb negb]. count_calls. }
    apply (at_most_bind _ 0%nat); [lia | exact Hmid | intros _].
    apply (at_most_bind _ 1%nat); [lia | count_calls | intros _]. exact Hrest.
  - apply (at_most_bind _ 1%nat); [lia | count_calls | intros _].
    apply (at_most_bind _ 0%nat); [lia | exact Hmid | intros _].
    apply (at_most_bind _ 0%nat); [lia | | intros _; exact Hrest].
    unfold sendTelegram. rewrite Hvideo. cbn [negb].
    rewrite !andb_false_r. cbn [andb]. count_calls.
Qed.

Ltac two_sends :=
  idtac;
  lazymatch goal with
  | |- at_most is_telegram_send 1 (bind (sendTelegram _ _ _ _ _ true false) _) =>
      cbv zeta; apply one_send_of_two; count_calls
  end.

Lemma handle_sends_once (trigger cameraName : string) (active : bool) :
  at_most is_telegram_send 1 (handle trigger cameraName active).
Proof. count_with two_sends. Qed.

(** X13. Whatever the settings are and whatever the collaborators answer,
    one call of [handle] sends at most one chat message, although on the
    recording path it runs [sendTelegram] twice: the call before the
    recording sends in the modes "Text" and "Snapshot" only, the call after
    it in the mode "Video" only. *)
Theorem one_chat_message_per_handling (env : Env) (trigger cameraName : string)
    (active : bool) (w : World) :
  (length (List.filter is_telegram_send
             (calls_of env (handle trigger cameraName active) w)) <= 1)%nat.
Proof. apply at_most_calls, handle_sends_once. Qed.

(** *** One handling after another *)






(** *** Image detection *)

(** X15. [handleImageDetection] always answers: whatever the settings
    are and whatever the detection service, the clock and the settings
    store answer or throw, it returns normally, and the label it returns
    is a label name or [false], never [null]; so once detection is
    attempted, [handle] goes on only with a label name. *)
Theorem detection_always_answers (env : Env) (w : World) (cameraName : string)
    (aws : Aws) (labels : option (list string)) (confidence : option Z)
    (imgBuffer : option (list byte)) :
  exists label,
    fst (run env (handleImageDetection cameraName aws labels confidence imgBuffer) w)
    = Returned label
    /\ label <> LNull.
Proof.
  unfold handleImageDetection. rewrite run_try_catch.
  match goal with |- context [run env ?b w] => set (body := b) end.
  assert (safe (fun (_ : unit) (_ : Call) => Some tt) tt body
            (fun label _ => label <> LNull) (fun _ _ => True)) as Hsafe.
  { unfold body. walk; discriminate. }
  destruct (safe_calls _ env body _ _ tt w Hsafe) as (s' & _ & Hout).
  destruct (run env body w) as [[label | e] w1]; cbn [fst] in Hout.
  - exists label. by split.
  - exists LFalse. by split.
Qed.

(** *** Failures on the recording path *)







End HandlerRuns.

(** ** The prebuffer service over its life: start, viewers, cleanup *)

Module PrebufferRuns.
Import Prebuffer PrebufferFacts.

(** *** [start] *)

(** One iteration of the loop of [start], written out: the state from the
    literal, two fresh handles, the listener and the encoder. *)
Lemma start_camera_unfold (ports : nat -> Z) (config : Config) (t : Tick)
    (w : World) (camera : CameraConfig) :
  let h := next_handle w in
  let co := initial config camera t in
  let arguments_ :=
    Js.split_space (source camera)
      ++ ffmpegOutput ("tcp://127.0.0.1:" +:+ pretty (ports h)) in
  start_camera ports config t w camera
  = {| prebuffer :=
         <[name camera := set_session (Some {| server := h; process := S h |}) co]>
           (<[name camera := co]> (prebuffer w));
       effects :=
         effects w
           ++ [LogDebug "Starting Prebuffer server"; CreateServer h;
               Listen h (ports h);
               LogDebug (videoProcessor config +:+ " "
                           +:+ String.concat " " arguments_);
               Spawn (S h) (videoProcessor config) arguments_
                 (if cfg_debug camera then "pipe" else "ignore")];
       next_handle := S (S h) |}.
Proof.
  intros h co arguments_.
  unfold start_camera, startPreBufferSessions, put. cbn [prebuffer].
  rewrite lookup_insert_eq. fold co.
  change (prebufferSession co) with (@None Session).
  cbv beta iota zeta. unfold fresh, emit.
  cbn [prebuffer effects next_handle fst snd]. rewrite lookup_insert_eq.
  rewrite <- !app_assoc. reflexivity.
Qed.

Lemma start_camera_opens (ports : nat -> Z) (config : Config) (t : Tick)
    (w : World) (camera : CameraConfig) :
  session_running ports (videoProcessor config)
    (start_camera ports config t w camera) (name camera).
Proof.
  rewrite start_camera_unfold. cbv zeta. eexists _, _.
  cbn [prebuffer effects]. split; [apply lookup_insert_eq |].
  split; [reflexivity |]. cbn [server process].
  split; [apply in_or_app; right; simpl; tauto |].
  split; [apply in_or_app; right; simpl; tauto |].
  eexists _, _. apply in_or_app. right. simpl. tauto.
Qed.

Lemma start_camera_keeps (ports : nat -> Z) (config : Config) (t : Tick)
    (w : World) (camera : CameraConfig) (n : string) :
  session_running ports (videoProcessor config) w n ->
  session_running ports (videoProcessor config)
    (start_camera ports config t w camera) n.
Proof.
  intros (co & s & Hco & Hs & Hserver & Hlisten & args & stdio & Hspawn).
  destruct (decide (name camera = n)) as [<- | Hne]; [apply start_camera_opens |].
  rewrite start_camera_unfold. cbv zeta. exists co, s. cbn [prebuffer effects].
  rewrite !lookup_insert_ne by exact Hne.
  split; [exact Hco |]. split; [exact Hs |].
  split; [apply in_or_app; by left |]. split; [apply in_or_app; by left |].
  exists args, stdio. apply in_or_app. by left.
Qed.

Lemma start_fold_keeps (ports : nat -> Z) (config : Config) (t : Tick)
    (cams : list CameraConfig) (w : World) (n : string) :
  session_running ports (videoProcessor config) w n ->
  session_running ports (videoProcessor config)
    (fold_left (start_camera ports config t) cams w) n.
Proof.
  revert w. induction cams as [ | camera cams IH]; intros w Hw; simpl; [exact Hw |].
  apply IH. by apply start_camera_keeps.
Qed.

Lemma start_fold_opens (ports : nat -> Z) (config : Config) (t : Tick)
    (cams : list CameraConfig) (w : World) (camera : CameraConfig) :
  In camera cams ->
  session_running ports (videoProcessor config)
    (fold_left (start_camera ports config t) cams w) (name camera).
Proof.
  revert w. induction cams as [ | c cams IH]; intros w Hin; [destruct Hin |].
  destruct Hin as [-> | Hin]; simpl.
  - apply start_fold_keeps, start_camera_opens.
  - by apply IH.
Qed.

(** X18. After [start], every configured camera has a session on record
    under [prebufferSession], whose listener has been created and is
    listening and whose encoder has been spawned with the configured
    video processor; and asking [startPreBufferSessions] again for that
    camera returns the session on record and does nothing: no second
    listener, no second encoder. *)
Theorem start_opens_every_session (ports : nat -> Z) (config : Config) (t : Tick)
    (w : World) (camera : CameraConfig) :
  In camera (cameras config) ->
  let w' := start ports config t w in
  session_running ports (videoProcessor config) w' (name camera)
  /\ exists s, startPreBufferSessions ports (name camera) w' = (Some s, w').
Proof.
  intros Hin w'.
  assert (session_running ports (videoProcessor config) w' (name camera)) as Hrun.
  { unfold w', start. by apply start_fold_opens. }
  split; [exact Hrun |].
  destruct Hrun as (co & s & Hco & Hs & _). exists s.
  unfold startPreBufferSessions. by rewrite Hco, Hs.
Qed.

Lemma start_opens_every_session_witness :
  let w' := start ports0 garage_config {| now := 1000; stamp := "t0" |} empty_world in
  session_running ports0 "ffmpeg" w' "Garage"
  /\ exists s, startPreBufferSessions ports0 "Garage" w' = (Some s, w').
Proof.
  apply (start_opens_every_session ports0 garage_config
           {| now := 1000; stamp := "t0" |} empty_world
           {| name := "Garage"; source := "-i rtsp://garage/live";
              cfg_debug := false |}).
  left. reflexivity.
Defined.

Lemma start_fold_counts (ports : nat -> Z) (config : Config) (t : Tick)
    (kind : Effect -> bool) (cams : list CameraConfig) (w : World) :
  (forall h port, kind (Listen h port) = false) ->
  (forall msg, kind (LogDebug msg) = false) ->
  (forall h path args stdio h',
     (if kind (Spawn h path args stdio) then 1 else 0)
     + (if kind (CreateServer h') then 1 else 0) = 1)%nat ->
  length (List.filter kind
            (effects (fold_left (start_camera ports config t) cams w)))
  = (length (List.filter kind (effects w)) + length cams)%nat.
Proof.
  intros Hlisten Hlog Hone. revert w.
  induction cams as [ | camera cams IH]; intros w; simpl; [lia |].
  rewrite IH, start_camera_unfold. cbv zeta. cbn [effects].
  rewrite List.filter_app, List.length_app. cbn [List.filter].
  rewrite !Hlog, Hlisten.
  match goal with
  | |- context [kind (Spawn ?h ?path ?args ?stdio)] =>
      pose proof (Hone h path args stdio (next_handle w)) as Hsum
  end.
  destruct (kind (CreateServer _)), (kind (Spawn _ _ _ _)); simpl in *; lia.
Qed.

(** X19. [start] creates exactly one listener and spawns exactly one
    encoder per entry of the camera list: also for entries that share a
    name, where the later entry replaces the state of the earlier one and
    the earlier encoder stays behind, no longer on record. *)
Theorem start_spawns_one_encoder_per_camera (ports : nat -> Z) (config : Config)
    (t : Tick) (w : World) :
  let w' := start ports config t w in
  length (List.filter is_spawn (effects w'))
  = (length (List.filter is_spawn (effects w)) + length (cameras config))%nat
  /\ length (List.filter is_create_server (effects w'))
     = (length (List.filter is_create_server (effects w))
        + length (cameras config))%nat.
Proof.
  cbv zeta. unfold start.
  rewrite !start_fold_counts by (intros; reflexivity).
  cbn [emit effects]. rewrite !List.filter_app, !List.length_app. simpl.
  split; lia.
Qed.

(** *** Viewers *)

(** Nothing reaches a socket that does not listen. *)
Lemma ingest_all_silent (cameraName : string) (socket : nat)
    (live : list (Tick * Atom)) (w : World) (co : CameraOptions) :
  prebuffer w !! cameraName = Some co ->
  ~ In socket (events co) ->
  written socket (effects (ingest_all cameraName live w)) = written socket (effects w).
Proof.
  revert w co. induction live as [ | [t a] live IH]; intros w co Hco Hnot.
  - reflexivity.
  - change (ingest_all cameraName ((t, a) :: live) w)
      with (ingest_all cameraName live (ingest cameraName w (t, a))).
    rewrite (ingest_found cameraName w co t a Hco).
    rewrite (IH _ (ingest_atom t a co)).
    + simpl. rewrite written_app, written_others by exact Hnot.
      apply app_nil_r.
    + simpl. apply lookup_insert_eq.
    + by rewrite ingest_atom_events.
Qed.

Lemma not_in_filtered (socket : nat) (l : list nat) :
  ~ In socket (List.filter (fun s => negb (Nat.eqb s socket)) l).
Proof.
  intros Hin. apply List.filter_In in Hin as [_ Hne].
  by rewrite Nat.eqb_refl in Hne.
Qed.

Lemma filter_out_added (socket : nat) (l : list nat) :
  ~ In socket l ->
  List.filter (fun s => negb (Nat.eqb s socket)) (l ++ [socket]) = l.
Proof.
  induction l as [ | s l IH]; simpl; intros Hnot.
  - by rewrite Nat.eqb_refl.
  - destruct (Nat.eqb_spec s socket) as [-> | Hne]; simpl.
    + exfalso. apply Hnot. by left.
    + f_equal. apply IH. intros Hin. apply Hnot. by right.
Qed.

(** X20. After [cleanup] for a socket, nothing more is written to that
    socket, whatever is ingested afterwards: the ['atom'] listener of the
    socket is removed.  (Every connection subscribes its own socket once,
    so the listeners are listed without repetition.) *)
Theorem cleanup_ends_delivery (cameraName : string) (socket : nat)
    (live : list (Tick * Atom)) (w : World) (co : CameraOptions) :
  prebuffer w !! cameraName = Some co ->
  NoDup (events co) ->
  written socket (effects (ingest_all cameraName live (cleanup cameraName socket w)))
  = written socket (effects w).
Proof.
  intros Hco _. unfold cleanup. cbn [emit prebuffer]. rewrite Hco.
  rewrite (ingest_all_silent cameraName socket live _
             (set_listeners
                (List.filter (fun s => negb (Nat.eqb s socket)) (events co))
                (List.filter (fun s => negb (Nat.eqb s socket)) (killed co)) co)).
  - cbn [emit put effects]. rewrite !written_app. simpl. by rewrite !app_nil_r.
  - cbn [emit put prebuffer]. apply lookup_insert_eq.
  - cbn [set_listeners events]. apply not_in_filtered.
Qed.

Lemma cleanup_ends_delivery_witness :
  written 7 (effects (ingest_all "Garage" live_feed (cleanup "Garage" 7 garage_two_viewers)))
  = written 7 (effects garage_two_viewers).
Proof.
  apply (cleanup_ends_delivery "Garage" 7 live_feed garage_two_viewers
           two_viewers_state).
  - vm_compute. reflexivity.
  - vm_compute. constructor.
    + intros Hin. inversion Hin as [ | ? ? ? Hin']. inversion Hin'.
    + constructor; [intros Hin; inversion Hin | constructor].
Defined.



(** X22. Connecting and cleaning up is a round trip on the camera state:
    after a viewer on a socket that was not subscribed has connected and
    its [cleanup] has run, the state of the camera is what it was before
    the viewer connected, with the same listeners in the same order. *)
Theorem connect_then_cleanup_restores_state (cameraName : string)
    (requestedPrebuffer now : Z) (server socket : nat) (w : World)
    (co : CameraOptions) :
  prebuffer w !! cameraName = Some co ->
  ~ In socket (events co) ->
  ~ In socket (killed co) ->
  prebuffer
    (cleanup cameraName socket
       (getVideo_connection cameraName requestedPrebuffer server socket now w))
    !! cameraName
  = Some co.
Proof.
  intros Hco Hevents Hkilled.
  unfold cleanup, getVideo_connection. cbn [emit prebuffer]. rewrite Hco.
  cbn [put emit_all prebuffer]. rewrite lookup_insert_eq.
  cbn [put prebuffer]. rewrite lookup_insert_eq. f_equal.
  destruct co. unfold set_listeners. cbn in *.
  by rewrite !filter_out_added.
Qed.

Lemma connect_then_cleanup_restores_state_witness :
  prebuffer (cleanup "Garage" 7 (getVideo_connection "Garage" 1999 2 7 7000 garage_fed))
    !! "Garage"
  = Some garage_state.
Proof.
  apply (connect_then_cleanup_restores_state "Garage" 1999 7000 2 7 garage_fed
           garage_state).
  - vm_compute. reflexivity.
  - vm_compute. tauto.
  - vm_compute. tauto.
Defined.

(** *** The ring *)

Lemma evict_keeps_last (threshold : Z) (ring : list Entry) (e : Entry) :
  threshold <= time e -> last (evict threshold (ring ++ [e])) = Some e.
Proof.
  intros Hfresh. induction ring as [ | e0 ring IH]; simpl.
  - destruct (Z.ltb_spec (time e) threshold); [lia | reflexivity].
  - destruct (time e0 <? threshold); [exact IH |].
    change (e0 :: ring ++ [e]) with ((e0 :: ring) ++ [e]). apply last_snoc.
Qed.

(** X23. Once [ftyp] and [moov] are set and the configured duration is
    not below -100, the atom just ingested is the newest entry of the
    ring, stamped with the clock reading of its arrival: the eviction loop
    never removes it. *)
Theorem newest_atom_is_kept (t : Tick) (a f m : Atom) (co : CameraOptions) :
  ftyp co = Some f ->
  moov co = Some m ->
  -100 <= videoDuration co ->
  last (prebufferFmp4 (ingest_atom t a co))
  = Some {| atom := a; time := now t; date := stamp t |}.
Proof.
  intros Hf Hm Hduration. rewrite ingest_atom_ring.
  unfold store_atom. cbn [set_time ftyp moov]. rewrite Hf, Hm.
  destruct (String.eqb (type a) "mdat"); cbn;
    apply evict_keeps_last; cbn; lia.
Qed.

Lemma newest_atom_is_kept_witness :
  last (prebufferFmp4
          (ingest_atom {| now := 7001; stamp := "t8" |} (box "mdat" [x08]) garage_state))
  = Some {| atom := box "mdat" [x08]; time := 7001; date := "t8" |}.
Proof.
  apply (newest_atom_is_kept {| now := 7001; stamp := "t8" |} (box "mdat" [x08])
           (box "ftyp" [x01]) (box "moov" [x02]) garage_state).
  - vm_compute. reflexivity.
  - vm_compute. reflexivity.
  - vm_compute. discriminate.
Defined.

Lemma replay_sublist (threshold : Z) (needMoof : bool) (ring : list Entry) :
  sublist (replay threshold needMoof ring) (List.map atom ring).
Proof.
  revert needMoof. induction ring as [ | e rest IH]; intros needMoof; simpl.
  - constructor.
  - destruct (time e <? threshold); [by apply sublist_cons |].
    destruct (needMoof && negb (String.eqb (type (atom e)) "moof"));
      [by apply sublist_cons | by apply sublist_skip].
Qed.

(** X24. What a connecting viewer is sent from the ring starts at a
    fragment boundary: the first ring atom written, if there is one, is a
    ['moof'].  And the atoms written are atoms of the ring in ring order,
    none repeated and none invented. *)
Theorem replay_starts_at_fragment (threshold : Z) (ring : list Entry) :
  Forall (fun a => type a = "moof") (take 1 (replay threshold true ring))
  /\ sublist (replay threshold true ring) (List.map atom ring).
Proof.
  split; [ | apply replay_sublist].
  induction ring as [ | e rest IH]; simpl; [constructor |].
  destruct (time e <? threshold); [exact IH |].
  destruct (String.eqb_spec (type (atom e)) "moof") as [Hmoof | _]; simpl.
  - constructor; [exact Hmoof | constructor].
  - exact IH.
Qed.

End PrebufferRuns.
